(** * rviz_attitude_plugin: the overlay subsystem (overlay_system.cpp)

    A shallow embedding of [OverlayGeometryManager], [ScopedPixelBuffer],
    [OverlayPanel] and [OverlayManager], followed by the properties of
    the placement arithmetic, of the lock/unlock pairing of the pixel
    buffer guard, and of the texture life cycle.

    Conventions.
    - [int] values are [Z]; the subtraction of two [int]s is reduced to
      the 32-bit two's complement range by [to_int].  Every statement
      that relates the code to exact integer arithmetic carries the
      range facts it needs.
    - [unsigned int] values are [N]; conversions between the two are
      [to_uint] and [uint_to_int].
    - Calls into Ogre, Qt and the widget are recorded as [event]s, in
      program order.  A computation yields a [result] and the events it
      emitted: [Done] for a normal or early return, [Thrown] for an
      exception leaving the function, [Crash] for a null dereference.
    - A nullable pointer or shared pointer is an [option]; the object it
      designates is owned by the holder and stored in place.
    - Calls into Ogre and Qt are taken to succeed; the widget's paint may
      raise. *)

From stdpp Require Import base numbers option list strings pretty gmap.
From Stdlib Require Import Lia.

Local Open Scope Z_scope.

(** ** Machine integers *)

Definition INT_MIN : Z := - 2 ^ 31.
Definition INT_MAX : Z := 2 ^ 31 - 1.

Definition int_range (z : Z) : Prop := INT_MIN <= z <= INT_MAX.

(** Reduction to the 32-bit two's complement range. *)
Definition to_int (z : Z) : Z := (z + 2 ^ 31) mod 2 ^ 32 - 2 ^ 31.

(** [a - b] on [int] operands. *)
Definition int_sub (a b : Z) : Z := to_int (a - b).

(** [static_cast<unsigned int>(z)]. *)
Definition to_uint (z : Z) : N := Z.to_N (z mod 2 ^ 32).

(** [static_cast<int>(n)]. *)
Definition uint_to_int (n : N) : Z := to_int (Z.of_N n).

(** [a * b] on [unsigned int] operands. *)
Definition uint_mul (a b : N) : N := ((a * b) mod 2 ^ 32)%N.

(** [std::max(a, b)]: [(a < b) ? b : a]. *)
Definition std_max (a b : Z) : Z := if a <? b then b else a.

(** [std::clamp(v, lo, hi)]: [(v < lo) ? lo : (hi < v) ? hi : v]. *)
Definition std_clamp (v lo hi : Z) : Z :=
  if v <? lo then lo else if hi <? v then hi else v.

(** ** Qt values *)

Module QSize.
Record t := mk { width : Z; height : Z }.
End QSize.

Definition buffer_id := nat.

(** A [QImage] over the mapped memory of a buffer; [None] is the null
    image. *)
Record QImageData := mkQImage {
  img_buffer : buffer_id;
  img_width : N;
  img_height : N
}.
Definition QImage := option QImageData.

(** ** Events and computations *)

Inductive event :=
  | EvLogError
  | EvPrepareOverlays
  | EvOverlayCreate (name : string)
  | EvElementCreate (name : string)
  | EvMaterialCreate (name : string)
  | EvElementDestroy (name : string)
  | EvOverlayDestroy (name : string)
  | EvMaterialUnload (name : string)
  | EvMaterialRemove (name : string)
  | EvTextureCreate (name : string) (w h : N)
  | EvTextureRemove (name : string)
  | EvLock (b : buffer_id)
  | EvUnlock (b : buffer_id)
  | EvGetCurrentLock (b : buffer_id)
  | EvMemset (b : buffer_id) (bytes : N)
  | EvWidgetResize (w h : Z)
  | EvImageFill
  | EvWidgetRender.

Inductive result (A : Type) :=
  | Done (a : A)
  | Thrown
  | Crash.
Arguments Done {A} a.
Arguments Thrown {A}.
Arguments Crash {A}.

Definition cmd (A : Type) : Type := result A * list event.

Definition ret {A} (a : A) : cmd A := (Done a, []).
Definition emit (e : event) : cmd unit := (Done tt, [e]).
Definition throw {A} : cmd A := (Thrown, []).
Definition crash {A} : cmd A := (Crash, []).

Definition bind {A B} (c : cmd A) (k : A -> cmd B) : cmd B :=
  match c with
  | (Done a, l) => let '(r, l') := k a in (r, l ++ l')
  | (Thrown, l) => (Thrown, l)
  | (Crash, l) => (Crash, l)
  end.

Notation "x <~ c ;; k" := (bind c (fun x => k))
  (at level 100, c at level 90, k at level 200, right associativity).
Notation "c ;;; k" := (bind c (fun _ => k))
  (at level 100, k at level 200, right associativity).

(** [p->...] on a nullable pointer. *)
Definition deref {A} (p : option A) : cmd A :=
  match p with
  | Some a => ret a
  | None => crash
  end.

(** Number of events of a log selected by [f]. *)
Fixpoint count_ev (f : event -> bool) (l : list event) : nat :=
  match l with
  | [] => 0%nat
  | e :: l => ((if f e then 1 else 0) + count_ev f l)%nat
  end.

Definition is_lock (b : buffer_id) (e : event) : bool :=
  match e with EvLock b' => bool_decide (b' = b) | _ => false end.
Definition is_unlock (b : buffer_id) (e : event) : bool :=
  match e with EvUnlock b' => bool_decide (b' = b) | _ => false end.
Definition is_any_lock (e : event) : bool :=
  match e with EvLock _ => true | _ => false end.
Definition is_buffer_access (e : event) : bool :=
  match e with EvGetCurrentLock _ | EvMemset _ _ => true | _ => false end.
Definition is_texture_create (e : event) : bool :=
  match e with EvTextureCreate _ _ _ => true | _ => false end.
Definition is_texture_remove (e : event) : bool :=
  match e with EvTextureRemove _ => true | _ => false end.
Definition is_paint (e : event) : bool :=
  match e with EvWidgetRender => true | _ => false end.

(** What the code cannot see of its collaborators. *)
Record Env := {
  (** [Ogre::OverlayManager::getSingletonPtr()] is non-null. *)
  overlay_mgr : bool;
  (** Visibility of an overlay as [OverlayManager::create] returns it. *)
  overlay_created_visible : bool;
  (** [getBuffer()] of the manual texture created with this name and size. *)
  buffer_of : string -> N -> N -> option buffer_id;
  (** [getCurrentLock().data] of a buffer is non-null. *)
  lock_has_data : buffer_id -> bool;
  (** [AttitudeWidget::render] raises an exception. *)
  widget_render_throws : bool
}.

(** A host in which every collaborator is available. *)
Definition ready_env : Env := {|
  overlay_mgr := true;
  overlay_created_visible := true;
  buffer_of := fun _ _ _ => Some 7%nat;
  lock_has_data := fun _ => true;
  widget_render_throws := false
|}.

(** ** OverlayGeometryManager *)

Module OverlayGeometryManager.

Inductive Anchor := TopLeft | TopRight | BottomLeft | BottomRight.

Record Geometry := mkGeometry {
  width : Z;
  height : Z;
  offset_x : Z;
  offset_y : Z;
  anchor : Anchor
}.

Record t := mk { geometry_ : Geometry }.

Definition setGeometry (self : t) (width height offset_x offset_y : Z)
    (anchor : Anchor) : t :=
  {| geometry_ := mkGeometry width height offset_x offset_y anchor |}.

Definition getGeometry (self : t) : Geometry := geometry_ self.

Definition calculateClampedOffsets (self : t) (panel_size : QSize.t) : Z * Z :=
  let max_x_offset :=
    std_max 0 (int_sub (QSize.width panel_size) (width (geometry_ self))) in
  let max_y_offset :=
    std_max 0 (int_sub (QSize.height panel_size) (height (geometry_ self))) in
  let clamped_x := std_clamp (offset_x (geometry_ self)) 0 max_x_offset in
  let clamped_y := std_clamp (offset_y (geometry_ self)) 0 max_y_offset in
  (clamped_x, clamped_y).

Definition calculateAbsolutePosition (self : t) (panel_size : QSize.t) : Z * Z :=
  let '(clamped_x, clamped_y) := calculateClampedOffsets self panel_size in
  let absolute_x := clamped_x in
  let absolute_y := clamped_y in
  match anchor (geometry_ self) with
  | TopRight =>
      (int_sub (int_sub (QSize.width panel_size) (width (geometry_ self)))
               clamped_x,
       absolute_y)
  | TopLeft => (absolute_x, absolute_y)
  | BottomRight =>
      (int_sub (int_sub (QSize.width panel_size) (width (geometry_ self)))
               clamped_x,
       int_sub (int_sub (QSize.height panel_size) (height (geometry_ self)))
               clamped_y)
  | BottomLeft =>
      (absolute_x,
       int_sub (int_sub (QSize.height panel_size) (height (geometry_ self)))
               clamped_y)
  end.

Definition fitsWithinPanel (self : t) (panel_size : QSize.t) : bool :=
  (width (geometry_ self) <=? QSize.width panel_size)
  && (height (geometry_ self) <=? QSize.height panel_size).

Definition getDimensions (self : t) : Z * Z :=
  (width (geometry_ self), height (geometry_ self)).

Definition getOffsets (self : t) : Z * Z :=
  (offset_x (geometry_ self), offset_y (geometry_ self)).

Definition getAnchor (self : t) : Anchor := anchor (geometry_ self).

End OverlayGeometryManager.

(** ** ScopedPixelBuffer *)

Module ScopedPixelBuffer.

(** [buffer_] is a [HardwarePixelBufferSharedPtr]; [None] is the empty
    pointer.  Moving a shared pointer leaves its source empty. *)
Record t := mk { buffer_ : option buffer_id }.

Definition ctor (buffer : option buffer_id) : cmd t :=
  let self := mk buffer in
  (match buffer_ self with
   | Some b => emit (EvLock b)
   | None => ret tt
   end) ;;;
  ret self.

(** Move constructor: the new object and [other] as it is left. *)
Definition move_ctor (other : t) : cmd (t * t) :=
  ret (mk (buffer_ other), mk None).

(** Move assignment; [same_object] is the outcome of [this == &other].
    Yields [*this] and [other] as they are left. *)
Definition move_assign (same_object : bool) (self other : t) : cmd (t * t) :=
  if negb same_object then
    (match buffer_ self with
     | Some b => emit (EvUnlock b)
     | None => ret tt
     end) ;;;
    ret (mk (buffer_ other), mk None)
  else ret (self, other).

Definition dtor (self : t) : cmd unit :=
  match buffer_ self with
  | Some b => emit (EvUnlock b)
  | None => ret tt
  end.

Definition valid (self : t) : bool :=
  match buffer_ self with
  | Some _ => true
  | None => false
  end.

Definition getQImage (env : Env) (self : t) (width height : N) : cmd QImage :=
  match buffer_ self with
  | None => ret None
  | Some b =>
      emit (EvGetCurrentLock b) ;;;
      if lock_has_data env b then
        emit (EvMemset b (uint_mul (uint_mul width height) 4)) ;;;
        ret (Some (mkQImage b width height))
      else ret None
  end.

(** *** Object lifetimes

    Guards live at addresses; a statement constructs, moves or destroys
    the guard at an address.  Touching an address that holds no object,
    or constructing over a live one, is a [Crash]. *)

Definition addr := nat.

Inductive stmt :=
  | Construct (a : addr) (buffer : option buffer_id)
  | MoveConstruct (a other : addr)
  | MoveAssign (this other : addr)
  | Destroy (a : addr).

Definition step (s : stmt) (σ : gmap addr t) : cmd (gmap addr t) :=
  match s with
  | Construct a buffer =>
      match σ !! a with
      | Some _ => crash
      | None => self <~ ctor buffer ;; ret (<[a := self]> σ)
      end
  | MoveConstruct a other =>
      match σ !! a, σ !! other with
      | None, Some o =>
          r <~ move_ctor o ;;
          ret (<[a := r.1]> (<[other := r.2]> σ))
      | _, _ => crash
      end
  | MoveAssign this other =>
      match σ !! this, σ !! other with
      | Some self, Some o =>
          r <~ move_assign (bool_decide (this = other)) self o ;;
          ret (<[this := r.1]> (<[other := r.2]> σ))
      | _, _ => crash
      end
  | Destroy a =>
      match σ !! a with
      | Some self => dtor self ;;; ret (delete a σ)
      | None => crash
      end
  end.

Fixpoint exec (p : list stmt) (σ : gmap addr t) : cmd (gmap addr t) :=
  match p with
  | [] => ret σ
  | s :: p => σ' <~ step s σ ;; exec p σ'
  end.

(** 1 when the guard owes an unlock of [b]. *)
Definition owes (b : buffer_id) (o : t) : nat :=
  if bool_decide (buffer_ o = Some b) then 1%nat else 0%nat.

(** Number of live guards that owe an unlock of [b]. *)
Definition holders (b : buffer_id) (σ : gmap addr t) : nat :=
  map_fold (fun _ o n => (owes b o + n)%nat) 0%nat σ.

(** A guard of automatic storage duration: after [body], however it is
    left, the destructor runs. *)
Definition scoped {A} (guard : t) (body : cmd A) : cmd A :=
  match body with
  | (Crash, l) => (Crash, l)
  | (r, l) => let '(_, l') := dtor guard in (r, l ++ l')
  end.

End ScopedPixelBuffer.

(** ** OverlayPanel *)

Module Ogre.

Record Overlay := mkOverlay {
  ov_name : string;
  ov_visible : bool;
  ov_elements : list string
}.

(** Position and dimensions are the last values set, if any. *)
Record PanelOverlayElement := mkPanel {
  el_name : string;
  el_material : option string;
  el_position : option (Z * Z);
  el_dimensions : option (N * N)
}.

Record Material := mkMaterial {
  mat_name : string;
  mat_texture_units : list string;
  mat_alpha_blend : bool
}.

Record Texture := mkTexture {
  tex_name : string;
  tex_width : N;
  tex_height : N;
  tex_buffer : option buffer_id
}.

End Ogre.

Module OverlayPanel.
Import Ogre.

Record t := mk {
  name_ : string;
  overlay_ : option Overlay;
  panel_ : option PanelOverlayElement;
  material_ : option Material;
  texture_ : option Texture
}.

Definition with_overlay (self : t) (o : option Overlay) : t :=
  mk (name_ self) o (panel_ self) (material_ self) (texture_ self).
Definition with_panel (self : t) (p : option PanelOverlayElement) : t :=
  mk (name_ self) (overlay_ self) p (material_ self) (texture_ self).
Definition with_material (self : t) (m : option Material) : t :=
  mk (name_ self) (overlay_ self) (panel_ self) m (texture_ self).
Definition with_texture (self : t) (x : option Texture) : t :=
  mk (name_ self) (overlay_ self) (panel_ self) (material_ self) x.

Definition ctor (env : Env) (name : string) : cmd t :=
  if overlay_mgr env then
    let overlay_name := name +:+ "Overlay" in
    let panel_name := name +:+ "Panel" in
    let material_name := name +:+ "Material" in
    emit (EvOverlayCreate overlay_name) ;;;
    let overlay := mkOverlay overlay_name (overlay_created_visible env) [] in
    emit (EvElementCreate panel_name) ;;;
    let panel := mkPanel panel_name None None None in
    emit (EvMaterialCreate material_name) ;;;
    let material := mkMaterial material_name [] false in
    let panel :=
      mkPanel (el_name panel) (Some (mat_name material))
              (el_position panel) (el_dimensions panel) in
    let overlay :=
      mkOverlay (ov_name overlay) (ov_visible overlay)
                (ov_elements overlay ++ [el_name panel]) in
    let overlay := mkOverlay (ov_name overlay) false (ov_elements overlay) in
    ret (mk name (Some overlay) (Some panel) (Some material) None)
  else
    emit EvLogError ;;;
    ret (mk name None None None None).

Definition dtor (env : Env) (self : t) : cmd unit :=
  (match overlay_ self with
   | Some o =>
       if overlay_mgr env then
         p <~ deref (panel_ self) ;;
         emit (EvElementDestroy (el_name p)) ;;;
         emit (EvOverlayDestroy (ov_name o))
       else ret tt
   | None => ret tt
   end) ;;;
  (match material_ self with
   | Some m =>
       emit (EvMaterialUnload (mat_name m)) ;;;
       emit (EvMaterialRemove (mat_name m))
   | None => ret tt
   end) ;;;
  (match texture_ self with
   | Some x => emit (EvTextureRemove (tex_name x))
   | None => ret tt
   end).

Definition show (self : t) : cmd t :=
  match overlay_ self with
  | Some o =>
      ret (with_overlay self
             (Some (mkOverlay (ov_name o) true (ov_elements o))))
  | None => ret self
  end.

Definition hide (self : t) : cmd t :=
  match overlay_ self with
  | Some o =>
      ret (with_overlay self
             (Some (mkOverlay (ov_name o) false (ov_elements o))))
  | None => ret self
  end.

Definition isVisible (self : t) : bool :=
  match overlay_ self with
  | Some o => ov_visible o
  | None => false
  end.

Definition setPosition (self : t) (left top : Z) : cmd t :=
  match panel_ self with
  | Some p =>
      ret (with_panel self
             (Some (mkPanel (el_name p) (el_material p) (Some (left, top))
                            (el_dimensions p))))
  | None => ret self
  end.

Definition setDimensions (self : t) (width height : N) : cmd t :=
  match panel_ self with
  | Some p =>
      ret (with_panel self
             (Some (mkPanel (el_name p) (el_material p) (el_position p)
                            (Some (width, height)))))
  | None => ret self
  end.

(** The condition guarding the re-creation of the texture. *)
Definition texture_differs (self : t) (width height : N) : bool :=
  match texture_ self with
  | None => true
  | Some x =>
      negb (tex_width x =? width)%N || negb (tex_height x =? height)%N
  end.

Definition updateTextureSize (env : Env) (self : t) (width height : N) : cmd t :=
  match panel_ self with
  | None => ret self
  | Some _ =>
      let width := if (width =? 0)%N then 1%N else width in
      let height := if (height =? 0)%N then 1%N else height in
      let texture_name := name_ self +:+ "Texture" in
      if texture_differs self width height then
        self <~
          (match texture_ self with
           | Some x =>
               emit (EvTextureRemove (tex_name x)) ;;;
               m <~ deref (material_ self) ;;
               ret (with_material self
                      (Some (mkMaterial (mat_name m) [] (mat_alpha_blend m))))
           | None => ret self
           end) ;;
        emit (EvTextureCreate texture_name width height) ;;;
        let x :=
          mkTexture texture_name width height
                    (buffer_of env texture_name width height) in
        let self := with_texture self (Some x) in
        m <~ deref (material_ self) ;;
        let m :=
          mkMaterial (mat_name m) (mat_texture_units m ++ [tex_name x])
                     (mat_alpha_blend m) in
        let m := mkMaterial (mat_name m) (mat_texture_units m) true in
        ret (with_material self (Some m))
      else ret self
  end.

Definition getPixelBuffer (self : t) : cmd ScopedPixelBuffer.t :=
  match texture_ self with
  | None => ScopedPixelBuffer.ctor None
  | Some x => ScopedPixelBuffer.ctor (tex_buffer x)
  end.

Definition textureWidth (self : t) : N :=
  match texture_ self with
  | Some x => tex_width x
  | None => 0%N
  end.

Definition textureHeight (self : t) : N :=
  match texture_ self with
  | Some x => tex_height x
  | None => 0%N
  end.

(** *** Operation sequences on a resource *)

Inductive op :=
  | OpShow
  | OpHide
  | OpSetPosition (left top : Z)
  | OpSetDimensions (width height : N)
  | OpUpdateTextureSize (width height : N)
  | OpGetPixelBuffer.

(** [OpGetPixelBuffer] takes the guard and lets it go out of scope. *)
Definition run_op (env : Env) (o : op) (self : t) : cmd t :=
  match o with
  | OpShow => show self
  | OpHide => hide self
  | OpSetPosition x y => setPosition self x y
  | OpSetDimensions width height => setDimensions self width height
  | OpUpdateTextureSize width height => updateTextureSize env self width height
  | OpGetPixelBuffer =>
      buffer <~ getPixelBuffer self ;;
      ScopedPixelBuffer.scoped buffer (ret self)
  end.

Fixpoint run_ops (env : Env) (ops : list op) (self : t) : cmd t :=
  match ops with
  | [] => ret self
  | o :: ops => self <~ run_op env o self ;; run_ops env ops self
  end.

(** A resource built by the constructor, then driven by [ops]. *)
Definition lifetime (env : Env) (name : string) (ops : list op) : cmd t :=
  self <~ ctor env name ;; run_ops env ops self.

Definition is_update (o : op) : bool :=
  match o with OpUpdateTextureSize _ _ => true | _ => false end.

Definition is_show (o : op) : bool :=
  match o with OpShow => true | _ => false end.

(** Some call of [ops] is [updateTextureSize]. *)
Definition resize_requested (ops : list op) : bool := existsb is_update ops.

(** Some call of [ops] is [updateTextureSize] with a width or a height
    other than zero. *)
Definition nonzero_size_requested (ops : list op) : bool :=
  existsb (fun o =>
             match o with
             | OpUpdateTextureSize w h => negb (w =? 0)%N || negb (h =? 0)%N
             | _ => false
             end)
          ops.

(** Some call of [ops] is [show]. *)
Definition show_called (ops : list op) : bool := existsb is_show ops.

(** A texture creation asks for at least one pixel on each axis. *)
Definition creates_nonzero (e : event) : Prop :=
  match e with
  | EvTextureCreate _ w h => (1 <= w)%N /\ (1 <= h)%N
  | _ => True
  end.

(** 1 when the resource holds a texture. *)
Definition has_texture (self : t) : nat :=
  match texture_ self with
  | Some _ => 1%nat
  | None => 0%nat
  end.

(** No dereference of a null material can occur. *)
Definition wf (self : t) : Prop :=
  is_Some (panel_ self) -> is_Some (material_ self).

(** The resource named "HUD" as [ctor ready_env] leaves it. *)
Definition hud_fresh : t :=
  mk "HUD"
     (Some (mkOverlay "HUDOverlay" false ["HUDPanel"]))
     (Some (mkPanel "HUDPanel" (Some "HUDMaterial") None None))
     (Some (mkMaterial "HUDMaterial" [] false))
     None.

(** The same resource once its first texture, of size [w] x [h], exists. *)
Definition hud_textured (w h : N) : t :=
  mk "HUD"
     (Some (mkOverlay "HUDOverlay" false ["HUDPanel"]))
     (Some (mkPanel "HUDPanel" (Some "HUDMaterial") None None))
     (Some (mkMaterial "HUDMaterial" ["HUDTexture"] true))
     (Some (mkTexture "HUDTexture" w h (Some 7%nat))).

(** All three handles made by a successful construction are present. *)
Definition constructed (self : t) : Prop :=
  is_Some (overlay_ self) /\ is_Some (panel_ self) /\ is_Some (material_ self).

(** Visibility after one operation, given the visibility before it, on
    a resource whose overlay exists. *)
Definition visibility_step (v : bool) (o : op) : bool :=
  match o with
  | OpShow => true
  | OpHide => false
  | _ => v
  end.

(** Visibility after [ops], starting from [v]. *)
Definition visibility_after (ops : list op) (v : bool) : bool :=
  fold_left visibility_step ops v.

(** The material carries exactly the texture the resource holds: one
    texture unit naming it, with alpha blending on; or none at all. *)
Definition material_bound (env : Env) (self : t) : Prop :=
  exists m,
    material_ self = Some m
    /\ mat_name m = name_ self +:+ "Material"
    /\ match texture_ self with
       | Some x =>
           tex_name x = name_ self +:+ "Texture"
           /\ tex_buffer x = buffer_of env (tex_name x) (tex_width x) (tex_height x)
           /\ mat_texture_units m = [tex_name x]
           /\ mat_alpha_blend m = true
       | None =>
           mat_texture_units m = [] /\ mat_alpha_blend m = false
       end.

(** The resource a failed construction leaves. *)
Definition invalid_resource (name : string) : t := mk name None None None None.

End OverlayPanel.

(** ** OverlayManager *)

Module OverlayManager.
Import OverlayGeometryManager.

(** The host's render panel, with the size it has at the moment. *)
Record RenderPanel := mkRenderPanel { size : QSize.t }.

Record t := mk {
  overlay_panel_ : option OverlayPanel.t;
  render_panel_ : option RenderPanel
}.

Definition ctor : t := mk None None.

(** What [attach] reads of the display context. *)
Record ViewManager := mkViewManager { getRenderPanel : option RenderPanel }.
Record DisplayContext := mkDisplayContext { getViewManager : option ViewManager }.

(** [overlay_count] is the function's static counter, threaded through:
    the value before the call comes in, the value after it goes out. *)
Definition attach (env : Env) (overlay_count : Z) (self : t)
    (context : DisplayContext) : cmd (t * Z) :=
  r <~
    (match overlay_panel_ self with
     | None =>
         emit EvPrepareOverlays ;;;
         p <~ OverlayPanel.ctor env ("AttitudeDisplayHUD" +:+ pretty overlay_count) ;;
         ret (Some p, to_int (overlay_count + 1))
     | Some p => ret (Some p, overlay_count)
     end) ;;
  let render_panel :=
    match render_panel_ self with
    | None =>
        match getViewManager context with
        | Some view_manager => getRenderPanel view_manager
        | None => None
        end
    | Some rp => Some rp
    end in
  ret (mk r.1 render_panel, r.2).

(** The clamping of [setGeometry]. *)
Definition setGeometry_offsets (panel_size : QSize.t)
    (width height offset_x offset_y : Z) : Z * Z :=
  let max_x_offset := std_max 0 (int_sub (QSize.width panel_size) width) in
  let max_y_offset := std_max 0 (int_sub (QSize.height panel_size) height) in
  let offset_x := std_clamp offset_x 0 max_x_offset in
  let offset_y := std_clamp offset_y 0 max_y_offset in
  (offset_x, offset_y).

(** The position [setGeometry] hands to the panel. *)
Definition setGeometry_position (panel_size : QSize.t)
    (width height offset_x offset_y : Z) (anchor : Anchor) : Z * Z :=
  let '(offset_x, offset_y) :=
    setGeometry_offsets panel_size width height offset_x offset_y in
  let x := offset_x in
  let y := offset_y in
  match anchor with
  | TopRight =>
      (int_sub (int_sub (QSize.width panel_size) width) offset_x, y)
  | TopLeft => (x, y)
  | BottomRight =>
      (int_sub (int_sub (QSize.width panel_size) width) offset_x,
       int_sub (int_sub (QSize.height panel_size) height) offset_y)
  | BottomLeft =>
      (x, int_sub (int_sub (QSize.height panel_size) height) offset_y)
  end.

Definition setGeometry (env : Env) (self : t)
    (width height offset_x offset_y : Z) (anchor : Anchor) : cmd t :=
  match overlay_panel_ self, render_panel_ self with
  | Some p, Some rp =>
      let panel_size := size rp in
      let '(x, y) :=
        setGeometry_position panel_size width height offset_x offset_y anchor in
      p <~ OverlayPanel.updateTextureSize env p (to_uint width) (to_uint height) ;;
      p <~ OverlayPanel.setDimensions p (to_uint width) (to_uint height) ;;
      p <~ OverlayPanel.setPosition p x y ;;
      ret (mk (Some p) (render_panel_ self))
  | _, _ => ret self
  end.


(** What [render] does once the guard [buffer] is in scope. *)
Definition render_locked (env : Env) (buffer : ScopedPixelBuffer.t)
    (width height : N) : cmd unit :=
  if negb (ScopedPixelBuffer.valid buffer) then ret tt
  else
    image <~ ScopedPixelBuffer.getQImage env buffer width height ;;
    match image with
    | None => ret tt
    | Some _ =>
        emit EvImageFill ;;;
        if widget_render_throws env then throw else emit EvWidgetRender
    end.

(** The state an exception leaves behind is not tracked. *)
Definition render (env : Env) (self : t) : cmd t :=
  match overlay_panel_ self with
  | None => ret self
  | Some p =>
      let width := OverlayPanel.textureWidth p in
      let height := OverlayPanel.textureHeight p in
      if (width =? 0)%N || (height =? 0)%N then ret self
      else
        p <~ OverlayPanel.updateTextureSize env p width height ;;
        p <~ OverlayPanel.setDimensions p width height ;;
        emit (EvWidgetResize (uint_to_int width) (uint_to_int height)) ;;;
        buffer <~ OverlayPanel.getPixelBuffer p ;;
        ScopedPixelBuffer.scoped buffer (render_locked env buffer width height) ;;;
        ret (mk (Some p) (render_panel_ self))
  end.

(** The resource is absent, or its texture has a zero width or height
    (as it does when there is no texture). *)
Definition no_texture_area (self : t) : Prop :=
  match overlay_panel_ self with
  | None => True
  | Some p =>
      OverlayPanel.textureWidth p = 0%N \/ OverlayPanel.textureHeight p = 0%N
  end.

(** The texture has no pixel buffer to hand out, so the guard taken by
    [render] is invalid. *)
Definition lock_unavailable (self : t) : Prop :=
  exists p x,
    overlay_panel_ self = Some p
    /\ OverlayPanel.texture_ p = Some x
    /\ Ogre.tex_buffer x = None.

(** A manager attached to a freshly constructed resource, which has no
    texture yet. *)
Definition idle_manager : t :=
  mk (Some OverlayPanel.hud_fresh) (Some (mkRenderPanel (QSize.mk 800 600))).

End OverlayManager.

(** ** HeadingIndicator: the fixed outer ring

    [drawFixedOuterRing] computes where things are drawn in [double]
    arithmetic, which is left out; what is drawn at which angle, and
    with which text, is decided on [int]s and is modelled here: every
    item stands for the painter calls made for it, in program order. *)

Module HeadingIndicator.

(** The text of a degree label: the literal for 180 degrees, or
    [QString::number] of an [int]. *)
Inductive label :=
  | PlusMinus180
  | Number (n : Z).

Inductive ring_item :=
  | MajorTick (angle : Z)
  | CardinalLetter (angle : Z) (text : string)
  | DegreeLabel (angle : Z) (text : label)
  | MinorTick (angle : Z).

#[global] Instance label_eq_dec : EqDecision label.
Proof. solve_decision. Defined.

#[global] Instance ring_item_eq_dec : EqDecision ring_item.
Proof. solve_decision. Defined.

Definition cardinal_directions : gmap Z string :=
  {[ 0 := "N"; 90 := "E"; 180 := "S"; 270 := "W" ]}.

(** [for (int angle = 0; angle < 360; angle += step) body(angle)], run
    for at most [fuel] iterations. *)
Fixpoint for_angles (fuel : nat) (angle step : Z) (body : Z -> list ring_item)
    : list ring_item :=
  match fuel with
  | O => []
  | S fuel =>
      if angle <? 360
      then body angle ++ for_angles fuel (angle + step) step body
      else []
  end.

Definition display_angle (angle : Z) : Z :=
  if 180 <? angle then angle - 360 else angle.

Definition degree_text (angle : Z) : label :=
  let display_angle := display_angle angle in
  if (display_angle =? 180) || (display_angle =? -180)
  then PlusMinus180
  else Number (- display_angle).

Definition major_ticks_and_letters (angle : Z) : list ring_item :=
  MajorTick angle ::
  match cardinal_directions !! angle with
  | Some text => [CardinalLetter angle text]
  | None => []
  end.

Definition degree_numbers (angle : Z) : list ring_item :=
  [DegreeLabel angle (degree_text angle)].

Definition minor_ticks (angle : Z) : list ring_item :=
  if negb (Z.rem angle 30 =? 0) then [MinorTick angle] else [].

Definition drawFixedOuterRing : list ring_item :=
  for_angles 360 0 30 major_ticks_and_letters
  ++ for_angles 360 0 30 degree_numbers
  ++ for_angles 360 0 10 minor_ticks.

End HeadingIndicator.

(** * Properties *)

(** ** Machine integers *)

Lemma to_int_id (z : Z) : int_range z -> to_int z = z.
Proof.
  unfold int_range, INT_MIN, INT_MAX, to_int. intros Hz.
  rewrite Z.mod_small by lia. lia.
Qed.

(** A difference of two [int]s that does not underflow is, once reduced,
    no larger than the exact difference or negative. *)
Lemma to_int_upper (a b : Z) :
  int_range a -> int_range b -> INT_MIN <= a - b ->
  to_int (a - b) <= Z.max 0 (a - b).
Proof.
  unfold int_range, INT_MIN, INT_MAX. intros Ha Hb Hd.
  destruct (Z_le_gt_dec (a - b) (2 ^ 31 - 1)) as [Hle|Hgt].
  - rewrite to_int_id by (unfold int_range, INT_MIN, INT_MAX; lia). lia.
  - unfold to_int.
    replace (a - b + 2 ^ 31) with ((a - b - 2 ^ 31) + 1 * 2 ^ 32) by lia.
    rewrite Z_mod_plus_full, Z.mod_small by lia. lia.
Qed.

Lemma std_max_spec (a b : Z) : std_max a b = Z.max a b.
Proof. unfold std_max. destruct (Z.ltb_spec a b); lia. Qed.

Lemma std_clamp_bounds (v lo hi : Z) :
  lo <= hi -> lo <= std_clamp v lo hi <= hi.
Proof.
  unfold std_clamp. intros Hle.
  destruct (Z.ltb_spec v lo); [lia|].
  destruct (Z.ltb_spec hi v); lia.
Qed.

(** Non-negative sizes never overflow the subtraction. *)
Lemma nonneg_sizes_no_overflow (v s : Z) :
  int_range v -> int_range s -> 0 <= v -> 0 <= s -> int_range (v - s).
Proof. unfold int_range, INT_MIN, INT_MAX. lia. Qed.

(** ** OverlayGeometryManager *)

Section Geometry.
Import OverlayGeometryManager.

(** One axis of the clamping: the offset kept for viewport extent [v]
    and overlay extent [s]. *)
Lemma clamp_axis_bounds (v s o : Z) :
  int_range v -> int_range s -> INT_MIN <= v - s ->
  0 <= std_clamp o 0 (std_max 0 (int_sub v s)) <= Z.max 0 (v - s).
Proof.
  intros Hv Hs Hd. rewrite std_max_spec.
  pose proof (to_int_upper v s Hv Hs Hd) as Hup. unfold int_sub.
  pose proof (std_clamp_bounds o 0 (Z.max 0 (to_int (v - s)))
                ltac:(lia)). lia.
Qed.

(** One axis of the far-edge placement, without overflow. *)
Lemma far_edge_exact (v s o : Z) :
  int_range (v - s) ->
  int_sub (int_sub v s) (std_clamp o 0 (std_max 0 (int_sub v s)))
  = v - s - std_clamp o 0 (std_max 0 (v - s)).
Proof.
  intros Hd. unfold int_sub at 2 3. rewrite (to_int_id _ Hd).
  rewrite std_max_spec.
  pose proof (std_clamp_bounds o 0 (Z.max 0 (v - s)) ltac:(lia)) as Hc.
  unfold int_sub. apply to_int_id.
  unfold int_range, INT_MIN, INT_MAX in *. lia.
Qed.

Lemma setGeometry_offsets_agree (g : Geometry) (panel_size : QSize.t) :
  OverlayManager.setGeometry_offsets panel_size (width g) (height g)
    (offset_x g) (offset_y g)
  = calculateClampedOffsets (mk g) panel_size.
Proof. reflexivity. Qed.

Lemma setGeometry_position_agree (g : Geometry) (panel_size : QSize.t) :
  OverlayManager.setGeometry_position panel_size (width g) (height g)
    (offset_x g) (offset_y g) (anchor g)
  = calculateAbsolutePosition (mk g) panel_size.
Proof. reflexivity. Qed.

(** C2. Whatever the overlay size, the requested offsets and the anchor,
    and for every viewport size whose difference with the overlay size
    does not underflow [int] (every non-negative viewport size does
    not), each clamped offset lies in [[0, max(0, V - S)]], the bound
    being taken in exact arithmetic.  [OverlayManager::setGeometry]
    clamps to the same values.  An offset of 10000 with overlay width
    200 in a viewport of width 800 is clamped to 600. *)
Theorem clamped_offsets_within_bounds (g : Geometry) (panel_size : QSize.t) :
  int_range (width g) -> int_range (height g) ->
  int_range (QSize.width panel_size) -> int_range (QSize.height panel_size) ->
  INT_MIN <= QSize.width panel_size - width g ->
  INT_MIN <= QSize.height panel_size - height g ->
  (0 <= (calculateClampedOffsets (mk g) panel_size).1
     <= Z.max 0 (QSize.width panel_size - width g))
  /\ (0 <= (calculateClampedOffsets (mk g) panel_size).2
        <= Z.max 0 (QSize.height panel_size - height g))
  /\ OverlayManager.setGeometry_offsets panel_size (width g) (height g)
       (offset_x g) (offset_y g)
     = calculateClampedOffsets (mk g) panel_size
  /\ (calculateClampedOffsets
        (mk (mkGeometry 200 (height g) 10000 (offset_y g) (anchor g)))
        (QSize.mk 800 (QSize.height panel_size))).1 = 600.
Proof.
  intros Hw Hh Hvw Hvh Hdx Hdy.
  split; [|split; [|split]].
  - apply clamp_axis_bounds; assumption.
  - apply clamp_axis_bounds; assumption.
  - apply setGeometry_offsets_agree.
  - reflexivity.
Qed.

Lemma clamped_offsets_within_bounds_witness :
  let g := mkGeometry 200 150 10000 (-7) TopRight in
  let v := QSize.mk 800 100 in
  calculateClampedOffsets (mk g) v = (600, 0)
  /\ (0 <= (calculateClampedOffsets (mk g) v).1 <= Z.max 0 (800 - 200))
  /\ (0 <= (calculateClampedOffsets (mk g) v).2 <= Z.max 0 (100 - 150)).
Proof.
  split; [reflexivity|].
  pose proof (clamped_offsets_within_bounds
                (mkGeometry 200 150 10000 (-7) TopRight) (QSize.mk 800 100))
    as H.
  simpl in H.
  destruct H as (Hx & Hy & _);
    try (unfold int_range, INT_MIN, INT_MAX; lia).
  split; assumption.
Defined.

(** Without overflow the position is the anchor resolution of the
    clamped offsets, in exact arithmetic. *)
Lemma absolute_position_exact (g : Geometry) (panel_size : QSize.t) :
  int_range (QSize.width panel_size - width g) ->
  int_range (QSize.height panel_size - height g) ->
  calculateAbsolutePosition (mk g) panel_size
  = (let '(clamped_x, clamped_y) := calculateClampedOffsets (mk g) panel_size in
     match anchor g with
     | TopLeft => (clamped_x, clamped_y)
     | TopRight => (QSize.width panel_size - width g - clamped_x, clamped_y)
     | BottomLeft => (clamped_x, QSize.height panel_size - height g - clamped_y)
     | BottomRight =>
         (QSize.width panel_size - width g - clamped_x,
          QSize.height panel_size - height g - clamped_y)
     end).
Proof.
  intros Hdx Hdy.
  unfold calculateAbsolutePosition, calculateClampedOffsets. simpl.
  rewrite !far_edge_exact by assumption.
  unfold int_sub. rewrite !to_int_id by assumption.
  destruct (anchor g); reflexivity.
Qed.

(** C3. Without [int] overflow in [V - S], the absolute position is the
    anchor resolution of the clamped offsets, in exact arithmetic:
    TopLeft (cx, cy); TopRight (vw - w - cx, cy); BottomLeft
    (cx, vh - h - cy); BottomRight (vw - w - cx, vh - h - cy).
    [OverlayManager::setGeometry] positions the panel at the same
    point.  Viewport 1920x1080, overlay 200x200, BottomRight, offset
    (10, 10) gives (1710, 870). *)
Theorem absolute_position_anchor_resolution
    (g : Geometry) (panel_size : QSize.t) :
  int_range (QSize.width panel_size - width g) ->
  int_range (QSize.height panel_size - height g) ->
  calculateAbsolutePosition (mk g) panel_size
  = (let '(clamped_x, clamped_y) := calculateClampedOffsets (mk g) panel_size in
     match anchor g with
     | TopLeft => (clamped_x, clamped_y)
     | TopRight => (QSize.width panel_size - width g - clamped_x, clamped_y)
     | BottomLeft => (clamped_x, QSize.height panel_size - height g - clamped_y)
     | BottomRight =>
         (QSize.width panel_size - width g - clamped_x,
          QSize.height panel_size - height g - clamped_y)
     end)
  /\ OverlayManager.setGeometry_position panel_size (width g) (height g)
       (offset_x g) (offset_y g) (anchor g)
     = calculateAbsolutePosition (mk g) panel_size
  /\ calculateAbsolutePosition (mk (mkGeometry 200 200 10 10 BottomRight))
       (QSize.mk 1920 1080) = (1710, 870).
Proof.
  intros Hdx Hdy. split; [|split].
  - apply absolute_position_exact; assumption.
  - apply setGeometry_position_agree.
  - reflexivity.
Qed.

Lemma absolute_position_anchor_resolution_witness :
  calculateAbsolutePosition (mk (mkGeometry 200 100 5000 30 TopRight))
    (QSize.mk 640 480) = (640 - 200 - 440, 30).
Proof.
  pose proof (absolute_position_anchor_resolution
                (mkGeometry 200 100 5000 30 TopRight) (QSize.mk 640 480))
    as H.
  simpl in H.
  destruct H as (H & _);
    try (unfold int_range, INT_MIN, INT_MAX; lia).
  exact H.
Defined.

(** C4. For every anchor and every requested offsets, when the viewport
    is at least as large as the overlay on both axes (and [V - S] fits
    an [int], as it does for every non-negative overlay size), the
    absolute position [p] satisfies [0 <= p] and [p + S <= V] on both
    axes. *)
Theorem absolute_position_inside_viewport
    (g : Geometry) (panel_size : QSize.t) :
  width g <= QSize.width panel_size ->
  height g <= QSize.height panel_size ->
  QSize.width panel_size - width g <= INT_MAX ->
  QSize.height panel_size - height g <= INT_MAX ->
  let p := calculateAbsolutePosition (mk g) panel_size in
  (0 <= p.1 /\ p.1 + width g <= QSize.width panel_size)
  /\ (0 <= p.2 /\ p.2 + height g <= QSize.height panel_size).
Proof.
  intros Hw Hh Hdx Hdy p.
  assert (Hrx : int_range (QSize.width panel_size - width g))
    by (unfold int_range, INT_MIN, INT_MAX in *; lia).
  assert (Hry : int_range (QSize.height panel_size - height g))
    by (unfold int_range, INT_MIN, INT_MAX in *; lia).
  subst p. rewrite (absolute_position_exact g panel_size Hrx Hry).
  unfold calculateClampedOffsets, int_sub. simpl.
  rewrite !to_int_id by assumption. rewrite !std_max_spec.
  pose proof (std_clamp_bounds (offset_x g) 0
                (Z.max 0 (QSize.width panel_size - width g)) ltac:(lia)).
  pose proof (std_clamp_bounds (offset_y g) 0
                (Z.max 0 (QSize.height panel_size - height g)) ltac:(lia)).
  destruct (anchor g); simpl; lia.
Qed.

Lemma absolute_position_inside_viewport_witness :
  let g := mkGeometry 200 200 (-50) 99999 BottomLeft in
  let v := QSize.mk 1920 1080 in
  calculateAbsolutePosition (mk g) v = (0, 0)
  /\ (0 <= 0 /\ 0 + 200 <= 1920) /\ (0 <= 0 /\ 0 + 200 <= 1080).
Proof.
  split; [reflexivity|].
  apply (absolute_position_inside_viewport
           (mkGeometry 200 200 (-50) 99999 BottomLeft) (QSize.mk 1920 1080));
    simpl; unfold INT_MAX; lia.
Defined.

(** An overlay larger than the viewport is not clamped in size: it keeps
    offset (0, 0), sits at (0, 0) and does not fit. *)
Example oversized_overlay :
  let self := mk (mkGeometry 200 200 0 0 TopLeft) in
  let v := QSize.mk 100 100 in
  calculateClampedOffsets self v = (0, 0)
  /\ calculateAbsolutePosition self v = (0, 0)
  /\ fitsWithinPanel self v = false.
Proof. repeat split. Qed.

End Geometry.

(** ** Computations and logs *)

Lemma count_ev_app (f : event -> bool) (l1 l2 : list event) :
  count_ev f (l1 ++ l2) = (count_ev f l1 + count_ev f l2)%nat.
Proof. induction l1 as [|e l1 IH]; simpl; [reflexivity|]. rewrite IH. lia. Qed.

Lemma bind_Done {A B} (c : cmd A) (k : A -> cmd B) (b : B) (l : list event) :
  bind c k = (Done b, l) ->
  exists a l1 l2, c = (Done a, l1) /\ k a = (Done b, l2) /\ l = l1 ++ l2.
Proof.
  destruct c as [[a| |] l1]; simpl; [|discriminate..].
  destruct (k a) as [r l2] eqn:Hk. intros [= -> <-].
  exists a, l1, l2. auto.
Qed.

Lemma bind_Done_intro {A B} (c : cmd A) (k : A -> cmd B) a l1 b l2 :
  c = (Done a, l1) -> k a = (Done b, l2) -> bind c k = (Done b, l1 ++ l2).
Proof. intros -> Hk. simpl. rewrite Hk. reflexivity. Qed.

(** ** ScopedPixelBuffer *)

Section Guard.
Import ScopedPixelBuffer.

Lemma owes_commute (b : buffer_id) (o1 o2 : t) (n : nat) :
  (owes b o1 + (owes b o2 + n) = owes b o2 + (owes b o1 + n))%nat.
Proof. lia. Qed.

Lemma holders_empty (b : buffer_id) : holders b ∅ = 0%nat.
Proof. unfold holders. apply map_fold_empty. Qed.

Lemma holders_insert_fresh (b : buffer_id) (σ : gmap addr t) (a : addr) (o : t) :
  σ !! a = None ->
  holders b (<[a := o]> σ) = (owes b o + holders b σ)%nat.
Proof.
  intros Ha. unfold holders.
  rewrite map_fold_insert_L; [reflexivity| |assumption].
  intros. apply owes_commute.
Qed.

Lemma holders_delete (b : buffer_id) (σ : gmap addr t) (a : addr) (o : t) :
  σ !! a = Some o ->
  holders b σ = (owes b o + holders b (delete a σ))%nat.
Proof.
  intros Ha. unfold holders.
  rewrite (map_fold_delete_L _ _ a o σ); [reflexivity| |assumption].
  intros. apply owes_commute.
Qed.

Lemma holders_insert_live (b : buffer_id) (σ : gmap addr t) (a : addr) (o o' : t) :
  σ !! a = Some o ->
  (holders b (<[a := o']> σ) + owes b o = owes b o' + holders b σ)%nat.
Proof.
  intros Ha. rewrite <- (insert_delete_eq σ a o').
  rewrite holders_insert_fresh by apply lookup_delete_eq.
  rewrite (holders_delete b σ a o Ha). lia.
Qed.

Lemma owes_moved (b : buffer_id) : owes b (mk None) = 0%nat.
Proof. reflexivity. Qed.

Lemma owes_lock (b b' : buffer_id) :
  owes b (mk (Some b')) = if bool_decide (b' = b) then 1%nat else 0%nat.
Proof.
  unfold owes. simpl. repeat case_bool_decide; congruence.
Qed.

(** One statement keeps locks and unlocks of [b] in step with the
    guards that still owe an unlock. *)
Lemma step_balance (s : stmt) (σ σ' : gmap addr t) (l : list event)
    (b : buffer_id) :
  step s σ = (Done σ', l) ->
  (count_ev (is_lock b) l + holders b σ
   = count_ev (is_unlock b) l + holders b σ')%nat.
Proof.
  destruct s as [a buffer|a other|this other|a]; simpl.
  - destruct (σ !! a) as [o|] eqn:Ha; [discriminate|].
    destruct buffer as [b'|]; intros [= <- <-]; simpl;
      rewrite holders_insert_fresh by assumption.
    + rewrite owes_lock. lia.
    + rewrite owes_moved. lia.
  - destruct (σ !! a) as [o0|] eqn:Ha; [discriminate|].
    destruct (σ !! other) as [o|] eqn:Ho; [|discriminate].
    intros [= <- <-]; simpl.
    assert (a <> other) by congruence.
    rewrite holders_insert_fresh
      by (rewrite lookup_insert_ne by congruence; assumption).
    pose proof (holders_insert_live b σ other o (mk None) Ho) as H1.
    rewrite owes_moved in H1.
    assert (owes b (mk (buffer_ o)) = owes b o) by (destruct o; reflexivity).
    lia.
  - destruct (σ !! this) as [self|] eqn:Hs; [|discriminate].
    destruct (σ !! other) as [o|] eqn:Ho; [|discriminate].
    case_bool_decide as Heq; simpl.
    + subst other. intros [= <- <-]; simpl.
      rewrite insert_insert_eq, insert_id by congruence. lia.
    + assert (Hl : <[other := mk None]> σ !! this = Some self)
        by (rewrite lookup_insert_ne by congruence; assumption).
      pose proof (holders_insert_live b _ this self (mk (buffer_ o)) Hl) as H1.
      pose proof (holders_insert_live b σ other o (mk None) Ho) as H2.
      rewrite owes_moved in H2.
      assert (owes b (mk (buffer_ o)) = owes b o) by (destruct o; reflexivity).
      destruct self as [[b'|]]; intros [= <- <-]; simpl in *.
      * rewrite owes_lock in H1. lia.
      * rewrite owes_moved in H1. lia.
  - destruct (σ !! a) as [[[b'|]]|] eqn:Ha; [| |discriminate];
      intros [= <- <-]; simpl;
      rewrite (holders_delete b σ a _ Ha).
    + rewrite owes_lock. lia.
    + rewrite owes_moved. lia.
Qed.

Lemma exec_balance (p : list stmt) (σ σ' : gmap addr t) (l : list event)
    (b : buffer_id) :
  exec p σ = (Done σ', l) ->
  (count_ev (is_lock b) l + holders b σ
   = count_ev (is_unlock b) l + holders b σ')%nat.
Proof.
  revert σ l. induction p as [|s p IH]; intros σ l; simpl.
  - intros [= <- <-]. simpl. lia.
  - intros H. apply bind_Done in H as (σ1 & l1 & l2 & Hs & Hp & ->).
    rewrite !count_ev_app.
    pose proof (step_balance _ _ _ _ b Hs).
    pose proof (IH _ _ Hp). lia.
Qed.

(** A guard in scope releases exactly what it owes once the body is
    left, by a return or by an exception. *)
Lemma scoped_log {A} (guard : t) (r : result A) (l : list event) :
  r <> Crash ->
  scoped guard (r, l) = (r, l ++ (dtor guard).2).
Proof.
  intros Hr. unfold scoped.
  destruct r; [| |congruence]; destruct (dtor guard); reflexivity.
Qed.

End Guard.

(** ** OverlayPanel *)

Section Panel.
Import Ogre OverlayPanel.

Lemma floor_one (n : N) : (if (n =? 0)%N then 1%N else n) = N.max n 1.
Proof. destruct (N.eqb_spec n 0); lia. Qed.

(** [updateTextureSize] on a resource whose panel and material exist. *)
Lemma updateTextureSize_spec (env : Env) (p : t) (width height : N)
    (e : PanelOverlayElement) (m : Material) :
  panel_ p = Some e -> material_ p = Some m ->
  let fw := N.max width 1 in
  let fh := N.max height 1 in
  let tn := name_ p +:+ "Texture" in
  let x' := mkTexture tn fw fh (buffer_of env tn fw fh) in
  updateTextureSize env p width height
  = match texture_ p with
    | Some x =>
        if (tex_width x =? fw)%N && (tex_height x =? fh)%N
        then (Done p, [])
        else (Done (mk (name_ p) (overlay_ p) (panel_ p)
                       (Some (mkMaterial (mat_name m) [tn] true)) (Some x')),
              [EvTextureRemove (tex_name x); EvTextureCreate tn fw fh])
    | None =>
        (Done (mk (name_ p) (overlay_ p) (panel_ p)
                  (Some (mkMaterial (mat_name m)
                           (mat_texture_units m ++ [tn]) true))
                  (Some x')),
         [EvTextureCreate tn fw fh])
    end.
Proof.
  intros He Hm fw fh tn x'. unfold updateTextureSize, texture_differs.
  rewrite He, !floor_one. fold fw fh.
  destruct p as [n ov pe mt [x|]]; simpl in *; subst pe mt.
  - destruct (tex_width x =? fw)%N, (tex_height x =? fh)%N; reflexivity.
  - reflexivity.
Qed.

Lemma updateTextureSize_invalid (env : Env) (p : t) (width height : N) :
  panel_ p = None -> updateTextureSize env p width height = (Done p, []).
Proof. intros Hp. unfold updateTextureSize. rewrite Hp. reflexivity. Qed.

(** Asking for the size the texture already has changes nothing,
    whatever the other handles are. *)
Lemma updateTextureSize_same (env : Env) (p : t) (width height : N) (x : Texture) :
  texture_ p = Some x ->
  tex_width x = N.max width 1 -> tex_height x = N.max height 1 ->
  updateTextureSize env p width height = (Done p, []).
Proof.
  intros Hx Hw Hh. unfold updateTextureSize, texture_differs.
  rewrite Hx, !floor_one, Hw, Hh, !N.eqb_refl.
  destruct (panel_ p); reflexivity.
Qed.

Lemma ctor_spec (env : Env) (name : string) :
  exists p l,
    ctor env name = (Done p, l)
    /\ texture_ p = None
    /\ isVisible p = false
    /\ (overlay_mgr env = true -> constructed p)
    /\ (overlay_mgr env = false -> overlay_ p = None /\ panel_ p = None)
    /\ wf p
    /\ Forall creates_nonzero l.
Proof.
  unfold ctor. destruct (overlay_mgr env); simpl.
  - eexists _, _. split; [reflexivity|]. simpl.
    split; [reflexivity|]. split; [reflexivity|].
    split; [intros _; unfold constructed; simpl; eauto|].
    split; [discriminate|].
    split; [intros _; simpl; eauto|].
    repeat constructor.
  - eexists _, _. split; [reflexivity|]. simpl.
    split; [reflexivity|]. split; [reflexivity|].
    split; [discriminate|].
    split; [intros _; split; reflexivity|].
    split; [intros [? ?]; discriminate|].
    repeat constructor.
Qed.

Local Ltac op_fact :=
  first
    [ reflexivity
    | assumption
    | solve [repeat constructor; simpl; lia]
    | solve [repeat constructor]
    | solve [unfold wf in *; simpl in *; eauto]
    | solve [simpl; split;
             [ intros H;
               first [left; exact H | right; split; [reflexivity|solve [eauto]]]
             | intros [H|[H1 H2]];
               first [exact H | discriminate | solve [eauto]
                     | destruct H2; discriminate] ] ]
    | solve [simpl; intros; first [reflexivity | discriminate | assumption]]
    | solve [split; intros; first [assumption | eexists; reflexivity]] ].

Local Ltac op_facts :=
  simpl; repeat lazymatch goal with |- _ /\ _ => split end; op_fact.

Lemma run_op_spec (env : Env) (o : op) (p : t) :
  wf p ->
  exists p' l,
    run_op env o p = (Done p', l)
    /\ wf p'
    /\ (is_Some (overlay_ p') <-> is_Some (overlay_ p))
    /\ (is_Some (panel_ p') <-> is_Some (panel_ p))
    /\ (is_Some (texture_ p')
        <-> is_Some (texture_ p) \/ (is_update o = true /\ is_Some (panel_ p)))
    /\ (is_show o = false -> isVisible p = false -> isVisible p' = false)
    /\ Forall creates_nonzero l
    /\ count_ev is_paint l = 0%nat
    /\ (count_ev is_texture_create l + has_texture p
        = count_ev is_texture_remove l + has_texture p')%nat.
Proof.
  intros Hwf.
  destruct o as [| |x y|w h|w h|]; simpl.
  - unfold show. destruct p as [n [ov|] pe mt tx];
      eexists _, _; (split; [reflexivity|]); op_facts.
  - unfold hide. destruct p as [n [ov|] pe mt tx];
      eexists _, _; (split; [reflexivity|]); op_facts.
  - unfold setPosition. destruct p as [n ov [pe|] mt tx];
      eexists _, _; (split; [reflexivity|]); op_facts.
  - unfold setDimensions. destruct p as [n ov [pe|] mt tx];
      eexists _, _; (split; [reflexivity|]); op_facts.
  - destruct (panel_ p) as [pe|] eqn:Hpe.
    + destruct (Hwf ltac:(eauto)) as [m Hm].
      rewrite (updateTextureSize_spec env p w h pe m Hpe Hm).
      destruct p as [n ov pe' mt [x|]]; simpl in Hpe, Hm; subst pe' mt;
        cbn [texture_ name_ overlay_ panel_];
        [destruct ((tex_width x =? N.max w 1)%N && (tex_height x =? N.max h 1)%N)|];
        eexists _, _; (split; [reflexivity|]); op_facts.
    + rewrite (updateTextureSize_invalid env p w h Hpe).
      destruct p as [n ov pe' mt tx]; simpl in Hpe; subst pe'.
      eexists _, _; (split; [reflexivity|]); op_facts.
  - unfold getPixelBuffer, ScopedPixelBuffer.ctor.
    destruct p as [n ov pe mt [[tn tw th [b|]]|]]; simpl;
      eexists _, _; (split; [reflexivity|]); op_facts.
Qed.

Lemma run_ops_spec (env : Env) (ops : list op) (p : t) :
  wf p ->
  exists p' l,
    run_ops env ops p = (Done p', l)
    /\ wf p'
    /\ (is_Some (overlay_ p') <-> is_Some (overlay_ p))
    /\ (is_Some (panel_ p') <-> is_Some (panel_ p))
    /\ (is_Some (texture_ p')
        <-> is_Some (texture_ p)
            \/ (resize_requested ops = true /\ is_Some (panel_ p)))
    /\ (show_called ops = false -> isVisible p = false -> isVisible p' = false)
    /\ Forall creates_nonzero l
    /\ count_ev is_paint l = 0%nat
    /\ (count_ev is_texture_create l + has_texture p
        = count_ev is_texture_remove l + has_texture p')%nat.
Proof.
  revert p. induction ops as [|o ops IH]; intros p Hwf.
  - exists p, []. simpl. repeat split; auto.
    intros [H|[H _]]; [assumption|discriminate].
  - destruct (run_op_spec env o p Hwf)
      as (p1 & l1 & Hop & Hwf1 & Hov1 & Hpan1 & Htex1 & Hvis1 & Hcr1 & Hpt1 & Hb1).
    destruct (IH p1 Hwf1)
      as (p2 & l2 & Hops & Hwf2 & Hov2 & Hpan2 & Htex2 & Hvis2 & Hcr2 & Hpt2 & Hb2).
    exists p2, (l1 ++ l2).
    split; [exact (bind_Done_intro _ _ _ _ _ _ Hop Hops)|].
    unfold resize_requested, show_called in *. simpl.
    rewrite orb_true_iff, orb_false_iff, !count_ev_app.
    repeat split; try tauto; try lia.
    apply Forall_app; split; assumption.
Qed.

(** A resource built by the constructor runs any sequence of operations
    to completion. *)
Lemma lifetime_spec (env : Env) (name : string) (ops : list op) :
  exists p l,
    lifetime env name ops = (Done p, l)
    /\ (constructed p <-> overlay_mgr env = true)
    /\ (is_Some (panel_ p) <-> overlay_mgr env = true)
    /\ (is_Some (texture_ p)
        <-> resize_requested ops = true /\ overlay_mgr env = true)
    /\ (show_called ops = false -> isVisible p = false)
    /\ Forall creates_nonzero l
    /\ count_ev is_paint l = 0%nat
    /\ count_ev is_texture_create l
       = (count_ev is_texture_remove l + has_texture p)%nat.
Proof.
  destruct (ctor_spec env name)
    as (p0 & l0 & Hc & Htex0 & Hvis0 & Hok & Hko & Hwf0 & Hcr0).
  destruct (run_ops_spec env ops p0 Hwf0)
    as (p & l & Hops & Hwf & Hov & Hpan & Htex & Hvis & Hcr & Hpt & Hb).
  exists p, (l0 ++ l).
  split; [exact (bind_Done_intro _ _ _ _ _ _ Hc Hops)|].
  assert (Hmgr : is_Some (panel_ p0) <-> overlay_mgr env = true).
  { destruct (overlay_mgr env).
    - destruct (Hok eq_refl) as (_ & Hp & _). tauto.
    - destruct (Hko eq_refl) as (_ & Hp). rewrite Hp.
      split; [intros [? ?]|]; discriminate. }
  assert (Hcons : constructed p <-> overlay_mgr env = true).
  { unfold constructed, wf in *. destruct (overlay_mgr env).
    - destruct (Hok eq_refl) as (Ho & Hp & _). tauto.
    - tauto. }
  rewrite Htex0 in Htex.
  assert (Hnone : ~ is_Some (@None Ogre.Texture))
    by (intros [? ?]; discriminate).
  split; [exact Hcons|].
  repeat split; try tauto; auto.
  - apply Forall_app; split; assumption.
  - rewrite count_ev_app, Hpt.
    unfold ctor in Hc. destruct (overlay_mgr env); simpl in Hc;
      injection Hc as <- <-; reflexivity.
  - rewrite !count_ev_app.
    assert (H0 : has_texture p0 = 0%nat) by (unfold has_texture; rewrite Htex0; reflexivity).
    rewrite H0 in Hb.
    unfold ctor in Hc. destruct (overlay_mgr env); simpl in Hc;
      injection Hc as <- <-; simpl; lia.
Qed.

(** Tearing the resource down after any sequence of operations never
    dereferences a null handle, and leaves as many textures removed as
    were created. *)
Lemma lifetime_teardown (env : Env) (name : string) (ops : list op) :
  exists p l l',
    lifetime env name ops = (Done p, l)
    /\ dtor env p = (Done tt, l')
    /\ count_ev is_texture_create (l ++ l')
       = count_ev is_texture_remove (l ++ l').
Proof.
  destruct (lifetime_spec env name ops)
    as (p & l & Hl & Hcons & _ & _ & _ & _ & _ & Hb).
  assert (Hd : exists l',
             dtor env p = (Done tt, l')
             /\ count_ev is_texture_create l' = 0%nat
             /\ count_ev is_texture_remove l' = has_texture p).
  { unfold dtor, has_texture. destruct (overlay_mgr env) eqn:Hmgr.
    - destruct (proj2 Hcons eq_refl) as ([o Ho] & [e He] & [m Hm]).
      rewrite Ho, He, Hm. simpl.
      destruct (texture_ p); eexists; repeat split.
    - destruct (overlay_ p), (material_ p), (texture_ p); simpl;
        eexists; repeat split. }
  destruct Hd as (l' & Hd & Hc & Hr).
  exists p, l, l'. rewrite !count_ev_app. repeat split; try assumption. lia.
Qed.

Lemma nonzero_request_is_request (ops : list op) :
  nonzero_size_requested ops = true -> resize_requested ops = true.
Proof.
  unfold nonzero_size_requested, resize_requested.
  induction ops as [|o ops IH]; simpl; [discriminate|].
  rewrite !orb_true_iff. intros [Ho|Hs]; [left|right; auto].
  destruct o; (reflexivity || discriminate).
Qed.

(** Two consecutive calls [updateTextureSize w h] on a resource whose
    handles exist. *)
Lemma updateTextureSize_twice (env : Env) (p : t) (width height : N) :
  constructed p ->
  let fw := N.max width 1 in
  let fh := N.max height 1 in
  let tn := name_ p +:+ "Texture" in
  exists p1 l1,
    updateTextureSize env p width height = (Done p1, l1)
    /\ updateTextureSize env p1 width height = (Done p1, [])
    /\ match texture_ p with
       | None =>
           l1 = [EvTextureCreate tn fw fh]
       | Some x =>
           if (tex_width x =? fw)%N && (tex_height x =? fh)%N
           then l1 = [] /\ p1 = p
           else l1 = [EvTextureRemove (tex_name x); EvTextureCreate tn fw fh]
       end
    /\ count_ev is_texture_create l1
       = (if texture_differs p fw fh then 1 else 0)%nat
    /\ count_ev is_texture_remove l1
       = (if texture_differs p fw fh && bool_decide (is_Some (texture_ p))
          then 1 else 0)%nat.
Proof.
  intros (_ & [e He] & [m Hm]) fw fh tn.
  rewrite (updateTextureSize_spec env p width height e m He Hm).
  fold fw fh tn. unfold texture_differs.
  destruct (texture_ p) as [x|] eqn:Hx.
  - destruct (N.eqb_spec (tex_width x) fw) as [Hw|Hw];
      destruct (N.eqb_spec (tex_height x) fh) as [Hh|Hh]; simpl.
    + exists p, []. repeat split; try reflexivity.
      exact (updateTextureSize_same env p width height x Hx Hw Hh).
    + eexists _, _. split; [reflexivity|].
      repeat split; try reflexivity.
      eapply updateTextureSize_same; reflexivity.
    + eexists _, _. split; [reflexivity|].
      repeat split; try reflexivity.
      eapply updateTextureSize_same; reflexivity.
    + eexists _, _. split; [reflexivity|].
      repeat split; try reflexivity.
      eapply updateTextureSize_same; reflexivity.
  - eexists _, _. split; [reflexivity|].
    repeat split; try reflexivity.
    eapply updateTextureSize_same; reflexivity.
Qed.

(** The same two calls made right after a successful construction. *)
Lemma fresh_resize_twice (env : Env) (name : string) (width height : N) :
  overlay_mgr env = true ->
  exists q l,
    lifetime env name
      [OpUpdateTextureSize width height; OpUpdateTextureSize width height]
    = (Done q, l)
    /\ count_ev is_texture_create l = 1%nat
    /\ count_ev is_texture_remove l = 0%nat.
Proof.
  intros Hmgr.
  destruct (ctor_spec env name)
    as (p0 & l0 & Hc & Htex0 & _ & Hok & _).
  destruct (updateTextureSize_twice env p0 width height (Hok Hmgr))
    as (p1 & l1 & H1 & H2 & Hl1 & _).
  rewrite Htex0 in Hl1. subst l1.
  exists p1. eexists. split.
  - unfold lifetime. eapply bind_Done_intro; [exact Hc|].
    simpl. rewrite H1. simpl. rewrite H2. reflexivity.
  - rewrite !count_ev_app. simpl.
    unfold ctor in Hc. rewrite Hmgr in Hc. simpl in Hc.
    injection Hc as <- <-. split; reflexivity.
Qed.

(** C5, as the code has it.  On a validly constructed resource the first
    of two calls [updateTextureSize w h] creates a texture exactly once
    when there is none (as right after construction) or when the current
    one does not have the floored size [(max w 1, max h 1)], removing the
    old one first if there is one, and does nothing otherwise; the second
    call does nothing at all.  Re-creation is decided on the floored
    size: a request that differs from the current texture only before
    flooring changes nothing. *)
Theorem resize_idempotent_recreates_on_change
    (env : Env) (p : t) (width height : N) :
  constructed p ->
  let fw := N.max width 1 in
  let fh := N.max height 1 in
  let tn := name_ p +:+ "Texture" in
  (exists p1 l1,
     updateTextureSize env p width height = (Done p1, l1)
     /\ updateTextureSize env p1 width height = (Done p1, [])
     /\ match texture_ p with
        | None =>
            l1 = [EvTextureCreate tn fw fh]
        | Some x =>
            if (tex_width x =? fw)%N && (tex_height x =? fh)%N
            then l1 = [] /\ p1 = p
            else l1 = [EvTextureRemove (tex_name x); EvTextureCreate tn fw fh]
        end
     /\ count_ev is_texture_create l1
        = (if texture_differs p fw fh then 1 else 0)%nat
     /\ count_ev is_texture_remove l1
        = (if texture_differs p fw fh && bool_decide (is_Some (texture_ p))
           then 1 else 0)%nat)
  /\ (overlay_mgr env = true ->
      forall name : string,
      exists q l,
        lifetime env name
          [OpUpdateTextureSize width height; OpUpdateTextureSize width height]
        = (Done q, l)
        /\ count_ev is_texture_create l = 1%nat
        /\ count_ev is_texture_remove l = 0%nat).
Proof.
  intros Hp fw fh tn. split.
  - exact (updateTextureSize_twice env p width height Hp).
  - intros Hmgr name. exact (fresh_resize_twice env name width height Hmgr).
Qed.

Lemma hud_fresh_reachable :
  ctor ready_env "HUD"
  = (Done hud_fresh,
     [EvOverlayCreate "HUDOverlay"; EvElementCreate "HUDPanel";
      EvMaterialCreate "HUDMaterial"]).
Proof. reflexivity. Qed.

Lemma hud_textured_reachable :
  lifetime ready_env "HUD" [OpUpdateTextureSize 1 1]
  = (Done (hud_textured 1 1),
     [EvOverlayCreate "HUDOverlay"; EvElementCreate "HUDPanel";
      EvMaterialCreate "HUDMaterial"; EvTextureCreate "HUDTexture" 1 1])
  /\ lifetime ready_env "HUD" [OpUpdateTextureSize 640 480]
     = (Done (hud_textured 640 480),
        [EvOverlayCreate "HUDOverlay"; EvElementCreate "HUDPanel";
         EvMaterialCreate "HUDMaterial"; EvTextureCreate "HUDTexture" 640 480]).
Proof. split; reflexivity. Qed.

Lemma resize_idempotent_recreates_on_change_witness :
  exists p1 l1,
    updateTextureSize ready_env (hud_textured 640 480) 0 480 = (Done p1, l1)
    /\ updateTextureSize ready_env p1 0 480 = (Done p1, [])
    /\ l1 = [EvTextureRemove "HUDTexture"; EvTextureCreate "HUDTexture" 1 480].
Proof.
  destruct (resize_idempotent_recreates_on_change
              ready_env (hud_textured 640 480) 0 480)
    as ((p1 & l1 & H1 & H2 & H3 & _) & _).
  - unfold constructed. simpl. eauto.
  - exists p1, l1. simpl in H3. auto.
Defined.

(** C5, as stated, fails: the resource holds a 1x1 texture and is asked
    for (0, 0), which differs from (1, 1); nothing is removed and
    nothing is created. *)
Lemma resize_differing_request_counterexample :
  ~ (forall (env : Env) (p : t) (width height : N),
       constructed p -> is_Some (texture_ p) ->
       (width, height) <> (textureWidth p, textureHeight p) ->
       count_ev is_texture_remove (updateTextureSize env p width height).2 = 1%nat
       /\ count_ev is_texture_create (updateTextureSize env p width height).2 = 1%nat).
Proof.
  intros H.
  destruct (H ready_env (hud_textured 1 1) 0%N 0%N) as [Hrm _].
  - unfold constructed. simpl. eauto.
  - simpl. eauto.
  - simpl. discriminate.
  - vm_compute in Hrm. discriminate.
Qed.

(** What one [updateTextureSize] leaves behind. *)
Lemma updateTextureSize_result (env : Env) (p : t) (width height : N) :
  constructed p ->
  exists p' l,
    updateTextureSize env p width height = (Done p', l)
    /\ constructed p'
    /\ is_Some (texture_ p')
    /\ textureWidth p' = N.max width 1
    /\ textureHeight p' = N.max height 1
    /\ panel_ p' = panel_ p
    /\ Forall creates_nonzero l.
Proof.
  intros (Ho & [e He] & [m Hm]).
  rewrite (updateTextureSize_spec env p width height e m He Hm).
  unfold constructed, textureWidth, textureHeight.
  destruct (texture_ p) as [x|] eqn:Hx.
  - destruct (N.eqb_spec (tex_width x) (N.max width 1)) as [Hw|Hw];
      destruct (N.eqb_spec (tex_height x) (N.max height 1)) as [Hh|Hh]; simpl;
      eexists _, _; (split; [reflexivity|]); simpl; rewrite ?Hx, ?He, ?Hm;
      repeat split; eauto; try lia; repeat constructor; lia.
  - eexists _, _; (split; [reflexivity|]); simpl; rewrite ?He;
      repeat split; eauto; try lia; repeat constructor; lia.
Qed.

(** C6. On a validly constructed resource every [updateTextureSize w h]
    completes and leaves a texture of dimensions [(max w 1, max h 1)];
    no texture creation, in that call or in any sequence of operations
    on a resource, asks for a zero width or height. *)
Theorem resize_floors_to_one (env : Env) (p : t) (width height : N) :
  constructed p ->
  exists p' l,
    updateTextureSize env p width height = (Done p', l)
    /\ constructed p'
    /\ is_Some (texture_ p')
    /\ textureWidth p' = N.max width 1
    /\ textureHeight p' = N.max height 1
    /\ (1 <= textureWidth p')%N /\ (1 <= textureHeight p')%N
    /\ Forall creates_nonzero l
    /\ (forall name ops, Forall creates_nonzero (lifetime env name ops).2).
Proof.
  intros Hp.
  destruct (updateTextureSize_result env p width height Hp)
    as (p' & l & Hu & Hc & Ht & Hw & Hh & _ & Hcr).
  exists p', l. rewrite Hw, Hh.
  repeat split; try assumption; try apply Hc; try lia.
  intros name ops.
  destruct (lifetime_spec env name ops) as (q & lq & -> & _ & _ & _ & _ & Hq & _).
  exact Hq.
Qed.

Lemma resize_floors_to_one_witness :
  exists p' l,
    updateTextureSize ready_env hud_fresh 0 0 = (Done p', l)
    /\ textureWidth p' = 1%N /\ textureHeight p' = 1%N.
Proof.
  destruct (resize_floors_to_one ready_env hud_fresh 0 0)
    as (p' & l & H & _ & _ & Hw & Hh & _).
  - unfold constructed. simpl. eauto.
  - exists p', l. auto.
Defined.

(** C7, as the code has it.  On a successfully constructed resource, after
    any sequence of operations the texture handle is non-null if and only
    if [updateTextureSize] has been called at least once, with any size;
    in particular a non-zero request implies a texture. *)
Theorem texture_iff_resize_requested (env : Env) (name : string) (ops : list op) :
  overlay_mgr env = true ->
  exists p l,
    lifetime env name ops = (Done p, l)
    /\ constructed p
    /\ (is_Some (texture_ p) <-> resize_requested ops = true)
    /\ (nonzero_size_requested ops = true -> is_Some (texture_ p)).
Proof.
  intros Hmgr.
  destruct (lifetime_spec env name ops)
    as (p & l & Hl & Hcons & _ & Htex & _).
  exists p, l. split; [exact Hl|].
  split; [tauto|]. split; [tauto|].
  intros Hnz. apply Htex. split; [|exact Hmgr].
  apply nonzero_request_is_request, Hnz.
Qed.

Lemma texture_iff_resize_requested_witness :
  exists p l,
    lifetime ready_env "HUD" [OpShow; OpUpdateTextureSize 0 0; OpHide] = (Done p, l)
    /\ (is_Some (texture_ p)
        <-> resize_requested [OpShow; OpUpdateTextureSize 0 0; OpHide] = true).
Proof.
  destruct (texture_iff_resize_requested ready_env "HUD"
              [OpShow; OpUpdateTextureSize 0 0; OpHide] eq_refl)
    as (p & l & H & _ & Hiff & _).
  exists p, l. auto.
Defined.

(** C7, as stated, fails: after a single request of (0, 0) the texture
    handle is non-null (the size is floored to 1x1), and no non-zero
    size was ever requested. *)
Lemma texture_iff_nonzero_request_counterexample :
  ~ (forall (env : Env) (name : string) (ops : list op) (p : t) (l : list event),
       overlay_mgr env = true ->
       lifetime env name ops = (Done p, l) ->
       (is_Some (texture_ p) <-> nonzero_size_requested ops = true)).
Proof.
  intros H.
  destruct (H ready_env "HUD" [OpUpdateTextureSize 0 0] _ _ eq_refl eq_refl)
    as [Hto _].
  simpl in Hto. discriminate Hto. eauto.
Qed.

(** C10. The constructor always completes and leaves the resource
    hidden; it stays hidden through any operations other than [show];
    and a resource whose overlay handle is null is never visible. *)
Theorem overlay_starts_hidden (env : Env) (name : string) (ops : list op) :
  show_called ops = false ->
  exists p0 l0,
    ctor env name = (Done p0, l0)
    /\ isVisible p0 = false
    /\ (exists p l, lifetime env name ops = (Done p, l) /\ isVisible p = false)
    /\ (forall q, overlay_ q = None -> isVisible q = false).
Proof.
  intros Hns.
  destruct (ctor_spec env name) as (p0 & l0 & Hc & _ & Hvis0 & _).
  destruct (lifetime_spec env name ops)
    as (p & l & Hl & _ & _ & _ & Hvis & _).
  exists p0, l0. repeat split; auto.
  - exists p, l. auto.
  - intros q Hq. unfold isVisible. rewrite Hq. reflexivity.
Qed.

Lemma overlay_starts_hidden_witness :
  exists p0 l0,
    ctor ready_env "HUD" = (Done p0, l0)
    /\ isVisible p0 = false
    /\ (exists p l,
          lifetime ready_env "HUD" [OpUpdateTextureSize 64 64; OpHide] = (Done p, l)
          /\ isVisible p = false).
Proof.
  destruct (overlay_starts_hidden ready_env "HUD"
              [OpUpdateTextureSize 64 64; OpHide] eq_refl)
    as (p0 & l0 & H & Hv & Hl & _).
  exists p0, l0. auto.
Defined.

End Panel.

(** ** OverlayManager *)

Section Manager.
Import Ogre OverlayManager.

(** [render] on a resource whose texture has a non-zero area. *)
Lemma render_spec (env : Env) (m : t) (p : OverlayPanel.t) (x : Texture) :
  overlay_panel_ m = Some p ->
  OverlayPanel.texture_ p = Some x ->
  tex_width x <> 0%N -> tex_height x <> 0%N ->
  exists p',
    OverlayPanel.setDimensions p (tex_width x) (tex_height x) = (Done p', [])
    /\ render env m
       = let m' := mk (Some p') (render_panel_ m) in
         let resize :=
           EvWidgetResize (uint_to_int (tex_width x)) (uint_to_int (tex_height x)) in
         match tex_buffer x with
         | None => (Done m', [resize])
         | Some b =>
             if lock_has_data env b then
               let clear :=
                 EvMemset b (uint_mul (uint_mul (tex_width x) (tex_height x)) 4) in
               if widget_render_throws env then
                 (Thrown,
                  [resize; EvLock b; EvGetCurrentLock b; clear; EvImageFill;
                   EvUnlock b])
               else
                 (Done m',
                  [resize; EvLock b; EvGetCurrentLock b; clear; EvImageFill;
                   EvWidgetRender; EvUnlock b])
             else
               (Done m', [resize; EvLock b; EvGetCurrentLock b; EvUnlock b])
         end.
Proof.
  intros Hp Hx Hw Hh. unfold render. rewrite Hp.
  unfold OverlayPanel.textureWidth, OverlayPanel.textureHeight. rewrite Hx.
  destruct (N.eqb_spec (tex_width x) 0) as [|_]; [contradiction|].
  destruct (N.eqb_spec (tex_height x) 0) as [|_]; [contradiction|].
  rewrite (updateTextureSize_same env p _ _ x Hx) by lia.
  destruct p as [n ov pe mt tx]. simpl in Hx. subst tx.
  destruct x as [tn tw th tb]. simpl in *.
  unfold OverlayPanel.setDimensions, OverlayPanel.getPixelBuffer,
    ScopedPixelBuffer.ctor, render_locked, ScopedPixelBuffer.getQImage.
  destruct pe as [e|]; simpl;
    (eexists; split; [reflexivity|]);
    (destruct tb as [b|]; simpl; [|reflexivity]);
    destruct (lock_has_data env b); simpl; [|reflexivity| |reflexivity];
    destruct (widget_render_throws env); reflexivity.
Qed.

(** [setGeometry] on an attached manager sizes the texture and the panel
    to the requested size and puts the panel at the position
    [calculateAbsolutePosition] gives for that geometry. *)
Lemma setGeometry_places_panel (env : Env) (m : t) (p : OverlayPanel.t)
    (rp : RenderPanel) (g : OverlayGeometryManager.Geometry) :
  overlay_panel_ m = Some p -> render_panel_ m = Some rp ->
  OverlayPanel.constructed p ->
  exists p' e l,
    setGeometry env m
      (OverlayGeometryManager.width g) (OverlayGeometryManager.height g)
      (OverlayGeometryManager.offset_x g) (OverlayGeometryManager.offset_y g)
      (OverlayGeometryManager.anchor g)
    = (Done (mk (Some p') (Some rp)), l)
    /\ OverlayPanel.panel_ p' = Some e
    /\ el_position e
       = Some (OverlayGeometryManager.calculateAbsolutePosition
                 (OverlayGeometryManager.mk g) (size rp))
    /\ el_dimensions e
       = Some (to_uint (OverlayGeometryManager.width g),
               to_uint (OverlayGeometryManager.height g))
    /\ OverlayPanel.textureWidth p'
       = N.max (to_uint (OverlayGeometryManager.width g)) 1
    /\ OverlayPanel.textureHeight p'
       = N.max (to_uint (OverlayGeometryManager.height g)) 1.
Proof.
  intros Hp Hrp Hc. unfold setGeometry. rewrite Hp, Hrp.
  rewrite setGeometry_position_agree.
  destruct (OverlayGeometryManager.calculateAbsolutePosition
              (OverlayGeometryManager.mk g) (size rp)) as [x y].
  destruct (updateTextureSize_result env p
              (to_uint (OverlayGeometryManager.width g))
              (to_uint (OverlayGeometryManager.height g)) Hc)
    as (p1 & l1 & -> & (_ & [e He] & _) & _ & Hw & Hh & _).
  destruct p1 as [n ov pe mt tx]. simpl in He. subst pe.
  eexists _, _, _. split; [reflexivity|].
  repeat split; assumption.
Qed.

(** [attach] always completes with a resource in place; attaching again
    with the same context changes nothing, calls nothing and leaves the
    name counter alone. *)
Lemma attach_idempotent (env : Env) (overlay_count : Z) (m : t)
    (context : DisplayContext) :
  exists m1 c1 l,
    attach env overlay_count m context = (Done (m1, c1), l)
    /\ is_Some (overlay_panel_ m1)
    /\ attach env c1 m1 context = (Done (m1, c1), [])
    /\ (is_Some (overlay_panel_ m) -> m1 = mk (overlay_panel_ m) (render_panel_ m1)
                                      /\ c1 = overlay_count).
Proof.
  unfold attach.
  destruct m as [[p|] rp]; simpl.
  - eexists _, _, _. split; [reflexivity|]. simpl.
    split; [eauto|]. split; [|auto].
    destruct rp as [rp|]; [reflexivity|].
    destruct (getViewManager context) as [[[vrp|]]|]; reflexivity.
  - unfold OverlayPanel.ctor. destruct (overlay_mgr env); simpl;
      (eexists _, _, _; split; [reflexivity|]); simpl;
      (split; [eauto|]);
      (split; [|intros [? ?]; discriminate]);
      destruct rp as [rp|]; try reflexivity;
      destruct (getViewManager context) as [[[vrp|]]|]; reflexivity.
Qed.

(** Locks and unlocks of every buffer are paired within one [render],
    whichever way it is left. *)
Lemma render_balanced (env : Env) (m : t) (b : buffer_id) :
  count_ev (is_unlock b) (render env m).2 = count_ev (is_lock b) (render env m).2.
Proof.
  destruct (overlay_panel_ m) as [p|] eqn:Hp;
    [|unfold render; rewrite Hp; reflexivity].
  destruct (OverlayPanel.texture_ p) as [x|] eqn:Hx;
    [|unfold render, OverlayPanel.textureWidth; rewrite Hp, Hx; reflexivity].
  destruct (N.eq_dec (tex_width x) 0%N) as [Hw|Hw];
    [unfold render, OverlayPanel.textureWidth; rewrite Hp, Hx, Hw; reflexivity|].
  destruct (N.eq_dec (tex_height x) 0%N) as [Hh|Hh].
  { unfold render, OverlayPanel.textureWidth, OverlayPanel.textureHeight.
    rewrite Hp, Hx, Hh, orb_true_r. reflexivity. }
  destruct (render_spec env m p x Hp Hx Hw Hh) as (p' & _ & ->).
  destruct (tex_buffer x) as [b'|]; [|reflexivity].
  destruct (lock_has_data env b'), (widget_render_throws env); simpl;
    destruct (bool_decide (b' = b)); reflexivity.
Qed.

(** C9. When the resource is absent or its texture has a zero width or
    height (no texture counts as zero), [render] returns at once: the
    manager is unchanged and nothing at all is called, so nothing is
    painted and no buffer is locked.  When instead the texture has no
    pixel buffer, so that the guard is invalid, [render] still returns
    normally without painting, locking or touching buffer memory. *)
Theorem render_skips_without_surface (env : Env) (m : t) :
  no_texture_area m \/ lock_unavailable m ->
  exists m' l,
    render env m = (Done m', l)
    /\ count_ev is_paint l = 0%nat
    /\ count_ev is_any_lock l = 0%nat
    /\ count_ev is_buffer_access l = 0%nat
    /\ (no_texture_area m -> m' = m /\ l = []).
Proof.
  assert (Hzero : no_texture_area m -> render env m = (Done m, [])).
  { unfold no_texture_area, render.
    destruct (overlay_panel_ m) as [p|]; [|reflexivity].
    intros [-> | ->]; [reflexivity|]. rewrite orb_true_r. reflexivity. }
  intros [Hz | (p & x & Hp & Hx & Hb)].
  - exists m, []. rewrite (Hzero Hz). repeat split; reflexivity.
  - destruct (N.eq_dec (tex_width x) 0%N) as [Hw|Hw];
      [|destruct (N.eq_dec (tex_height x) 0%N) as [Hh|Hh]].
    + assert (Hz : no_texture_area m).
      { unfold no_texture_area, OverlayPanel.textureWidth.
        rewrite Hp, Hx. left. exact Hw. }
      exists m, []. rewrite (Hzero Hz). repeat split; reflexivity.
    + assert (Hz : no_texture_area m).
      { unfold no_texture_area, OverlayPanel.textureHeight.
        rewrite Hp, Hx. right. exact Hh. }
      exists m, []. rewrite (Hzero Hz). repeat split; reflexivity.
    + destruct (render_spec env m p x Hp Hx Hw Hh) as (p' & _ & Hr).
      rewrite Hb in Hr. simpl in Hr.
      eexists _, _. split; [exact Hr|].
      split; [reflexivity|]. split; [reflexivity|]. split; [reflexivity|].
      intros Hz. exfalso. revert Hz.
      unfold no_texture_area, OverlayPanel.textureWidth,
        OverlayPanel.textureHeight.
      rewrite Hp, Hx. tauto.
Qed.

Lemma render_skips_without_surface_witness :
  render ready_env idle_manager = (Done idle_manager, [])
  /\ render ready_env ctor = (Done ctor, []).
Proof.
  assert (Z1 : no_texture_area idle_manager) by (left; reflexivity).
  assert (Z2 : no_texture_area ctor) by exact I.
  destruct (render_skips_without_surface ready_env idle_manager (or_introl Z1))
    as (m1 & l1 & H1 & _ & _ & _ & E1).
  destruct (render_skips_without_surface ready_env ctor (or_introl Z2))
    as (m2 & l2 & H2 & _ & _ & _ & E2).
  destruct (E1 Z1) as [-> ->].
  destruct (E2 Z2) as [-> ->].
  split; assumption.
Defined.

End Manager.

(** ** ScopedPixelBuffer: lock and unlock pairing *)

Section GuardPairing.
Import ScopedPixelBuffer.

(** C1. In every run of guard constructions, moves and destructions,
    each buffer has been locked exactly as often as it has been unlocked
    plus once per live guard still holding it; once no guard is left,
    locks and unlocks are equal in number.  A guard in scope is released
    exactly once after its body, whether the body returns or raises;
    [render] pairs locks and unlocks on each of its exit paths.  After a
    move construction or move assignment from a guard holding [b], the
    destruction of the moved-from guard unlocks nothing and that of the
    destination unlocks [b] exactly once. *)
Theorem unmap_once_per_map
    (prog : list stmt) (σ : gmap addr t) (l : list event) (b : buffer_id) :
  exec prog ∅ = (Done σ, l) ->
  count_ev (is_lock b) l = (count_ev (is_unlock b) l + holders b σ)%nat
  /\ (σ = ∅ -> count_ev (is_unlock b) l = count_ev (is_lock b) l)
  /\ (forall (A : Type) (r : result A) (body : list event),
        r <> Crash ->
        (guard <~ ctor (Some b) ;; scoped guard (r, body))
        = (r, [EvLock b] ++ body ++ [EvUnlock b]))
  /\ (forall (env : Env) (m : OverlayManager.t),
        count_ev (is_unlock b) (OverlayManager.render env m).2
        = count_ev (is_lock b) (OverlayManager.render env m).2)
  /\ (exists new old,
        move_ctor (mk (Some b)) = (Done (new, old), [])
        /\ dtor old = (Done tt, [])
        /\ dtor new = (Done tt, [EvUnlock b]))
  /\ (forall self : t,
        exists new old,
          move_assign false self (mk (Some b)) = (Done (new, old), (dtor self).2)
          /\ dtor old = (Done tt, [])
          /\ dtor new = (Done tt, [EvUnlock b]))
  /\ exec [Construct 0%nat (Some b); MoveConstruct 1%nat 0%nat; Destroy 0%nat] ∅
     = (Done {[ 1%nat := mk (Some b) ]}, [EvLock b])
  /\ exec [Construct 0%nat (Some b); MoveConstruct 1%nat 0%nat; Destroy 0%nat;
           Destroy 1%nat] ∅
     = (Done ∅, [EvLock b; EvUnlock b]).
Proof.
  intros Hexec.
  pose proof (exec_balance prog ∅ σ l b Hexec) as Hbal.
  rewrite holders_empty in Hbal.
  split; [lia|].
  split; [intros ->; rewrite holders_empty in Hbal; lia|].
  split.
  { intros A r body Hr. destruct r; [reflexivity|reflexivity|congruence]. }
  split; [intros env m; apply render_balanced|].
  split; [exists (mk (Some b)), (mk None); repeat split|].
  split.
  { intros [[b'|]]; exists (mk (Some b)), (mk None); repeat split. }
  split; vm_compute; reflexivity.
Qed.

Lemma unmap_once_per_map_witness :
  let prog :=
    [Construct 0%nat (Some 7%nat); Construct 1%nat (Some 9%nat);
     MoveAssign 1%nat 0%nat; MoveAssign 1%nat 1%nat; Destroy 0%nat;
     Destroy 1%nat] in
  exec prog ∅ = (Done ∅, [EvLock 7%nat; EvLock 9%nat; EvUnlock 9%nat; EvUnlock 7%nat])
  /\ count_ev (is_unlock 7%nat)
       [EvLock 7%nat; EvLock 9%nat; EvUnlock 9%nat; EvUnlock 7%nat]
     = count_ev (is_lock 7%nat)
         [EvLock 7%nat; EvLock 9%nat; EvUnlock 9%nat; EvUnlock 7%nat].
Proof.
  assert (H : exec
                [Construct 0%nat (Some 7%nat); Construct 1%nat (Some 9%nat);
                 MoveAssign 1%nat 0%nat; MoveAssign 1%nat 1%nat; Destroy 0%nat;
                 Destroy 1%nat] ∅
              = (Done ∅,
                 [EvLock 7%nat; EvLock 9%nat; EvUnlock 9%nat; EvUnlock 7%nat]))
    by (vm_compute; reflexivity).
  split; [exact H|].
  destruct (unmap_once_per_map _ _ _ 7%nat H) as (_ & Hall & _).
  exact (Hall eq_refl).
Defined.

(** C8. A guard built from the empty handle performs no lock, reports
    [valid() = false], hands out the null image for any dimensions
    without querying or writing buffer memory, and unlocks nothing when
    destroyed; the same holds of every invalid guard. *)
Theorem invalid_handle_guard_is_inert (env : Env) (width height : N) :
  ctor None = (Done (mk None), [])
  /\ valid (mk None) = false
  /\ getQImage env (mk None) width height = (Done None, [])
  /\ dtor (mk None) = (Done tt, [])
  /\ (forall guard : t,
        valid guard = false ->
        getQImage env guard width height = (Done None, [])
        /\ dtor guard = (Done tt, [])).
Proof.
  repeat split; try reflexivity;
    destruct guard as [[b|]]; (discriminate || reflexivity).
Qed.

End GuardPairing.

(** * Further properties *)

(** ** Placement arithmetic *)

Section Placement.
Import OverlayGeometryManager.

Lemma std_clamp_idempotent (v hi : Z) :
  0 <= hi -> std_clamp (std_clamp v 0 hi) 0 hi = std_clamp v 0 hi.
Proof.
  intros Hhi. unfold std_clamp.
  destruct (Z.ltb_spec v 0); [|destruct (Z.ltb_spec hi v)].
  - destruct (Z.ltb_spec 0 0); [lia|]. destruct (Z.ltb_spec hi 0); [lia|reflexivity].
  - destruct (Z.ltb_spec hi 0); [lia|]. destruct (Z.ltb_spec hi hi); [lia|reflexivity].
  - destruct (Z.ltb_spec v 0); [lia|]. destruct (Z.ltb_spec hi v); [lia|reflexivity].
Qed.

Lemma std_clamp_monotone (v v' lo hi : Z) :
  lo <= hi -> v <= v' -> std_clamp v lo hi <= std_clamp v' lo hi.
Proof.
  intros Hle Hv. unfold std_clamp.
  destruct (Z.ltb_spec v lo), (Z.ltb_spec v' lo); try lia;
    destruct (Z.ltb_spec hi v'); try lia;
    destruct (Z.ltb_spec hi v); lia.
Qed.

Lemma std_max_nonneg (z : Z) : 0 <= std_max 0 z.
Proof. rewrite std_max_spec. lia. Qed.

(** One axis on which the overlay is larger than the viewport: nothing
    is left to clamp into. *)
Lemma oversized_axis (v s o : Z) :
  INT_MIN <= v - s -> v < s ->
  std_clamp o 0 (std_max 0 (int_sub v s)) = 0 /\ int_sub v s = v - s.
Proof.
  intros Hlo Hlt.
  assert (Hid : int_sub v s = v - s).
  { unfold int_sub. apply to_int_id.
    unfold int_range, INT_MIN, INT_MAX in *. lia. }
  split; [|exact Hid].
  rewrite Hid, std_max_spec.
  pose proof (std_clamp_bounds o 0 (Z.max 0 (v - s)) ltac:(lia)). lia.
Qed.

Lemma int_sub_zero (z : Z) : int_range z -> int_sub z 0 = z.
Proof. intros Hz. unfold int_sub. rewrite Z.sub_0_r. apply to_int_id, Hz. Qed.

(** X1. On an axis where the overlay is larger than the viewport (their
    difference not underflowing [int]), every requested offset is clamped
    to 0, [fitsWithinPanel] is false, and the overlay overflows on the
    side away from its anchor: a left or top anchor puts it at 0, a right
    or bottom anchor at the negative coordinate [V - S]. *)
Theorem oversized_overlay_pins_offset (g : Geometry) (panel_size : QSize.t) :
  (INT_MIN <= QSize.width panel_size - width g ->
   QSize.width panel_size < width g ->
   (calculateClampedOffsets (mk g) panel_size).1 = 0
   /\ fitsWithinPanel (mk g) panel_size = false
   /\ (calculateAbsolutePosition (mk g) panel_size).1
      = match anchor g with
        | TopLeft | BottomLeft => 0
        | TopRight | BottomRight => QSize.width panel_size - width g
        end)
  /\ (INT_MIN <= QSize.height panel_size - height g ->
      QSize.height panel_size < height g ->
      (calculateClampedOffsets (mk g) panel_size).2 = 0
      /\ fitsWithinPanel (mk g) panel_size = false
      /\ (calculateAbsolutePosition (mk g) panel_size).2
         = match anchor g with
           | TopLeft | TopRight => 0
           | BottomLeft | BottomRight => QSize.height panel_size - height g
           end).
Proof.
  split; intros Hlo Hlt.
  - destruct (oversized_axis _ _ (offset_x g) Hlo Hlt) as [Hc Hs].
    assert (Hr : int_range (QSize.width panel_size - width g))
      by (unfold int_range, INT_MIN, INT_MAX in *; lia).
    split; [exact Hc|]. split.
    + unfold fitsWithinPanel. simpl.
      destruct (Z.leb_spec (width g) (QSize.width panel_size)); [lia|reflexivity].
    + unfold calculateAbsolutePosition, calculateClampedOffsets. simpl.
      rewrite Hc, Hs.
      destruct (anchor g); simpl; try reflexivity; apply int_sub_zero, Hr.
  - destruct (oversized_axis _ _ (offset_y g) Hlo Hlt) as [Hc Hs].
    assert (Hr : int_range (QSize.height panel_size - height g))
      by (unfold int_range, INT_MIN, INT_MAX in *; lia).
    split; [exact Hc|]. split.
    + unfold fitsWithinPanel. simpl.
      destruct (Z.leb_spec (height g) (QSize.height panel_size)); [lia|].
      apply andb_false_r.
    + unfold calculateAbsolutePosition, calculateClampedOffsets. simpl.
      rewrite Hc, Hs.
      destruct (anchor g); simpl; try reflexivity; apply int_sub_zero, Hr.
Qed.

Lemma oversized_overlay_pins_offset_witness :
  let g := mkGeometry 200 300 55 (-3) BottomRight in
  let v := QSize.mk 100 120 in
  (calculateAbsolutePosition (mk g) v).1 = 100 - 200
  /\ (calculateAbsolutePosition (mk g) v).2 = 120 - 300.
Proof.
  destruct (oversized_overlay_pins_offset
              (mkGeometry 200 300 55 (-3) BottomRight) (QSize.mk 100 120))
    as [Hx Hy].
  destruct (Hx ltac:(simpl; unfold INT_MIN; lia) ltac:(simpl; lia))
    as (_ & _ & Hpx).
  destruct (Hy ltac:(simpl; unfold INT_MIN; lia) ltac:(simpl; lia))
    as (_ & _ & Hpy).
  exact (conj Hpx Hpy).
Defined.

(** X2. Clamping is idempotent: storing the clamped offsets back as the
    requested ones leaves both the clamped offsets and the absolute
    position as they were, for every geometry and viewport. *)
Theorem clamped_offsets_are_fixed_point (g : Geometry) (panel_size : QSize.t) :
  let c := calculateClampedOffsets (mk g) panel_size in
  let self' := setGeometry (mk g) (width g) (height g) c.1 c.2 (anchor g) in
  calculateClampedOffsets self' panel_size = c
  /\ calculateAbsolutePosition self' panel_size
     = calculateAbsolutePosition (mk g) panel_size.
Proof.
  intros c self'.
  assert (Hc : calculateClampedOffsets self' panel_size = c).
  { subst c self'. unfold calculateClampedOffsets, setGeometry. simpl.
    rewrite !std_clamp_idempotent by apply std_max_nonneg. reflexivity. }
  split; [exact Hc|].
  unfold calculateAbsolutePosition. rewrite Hc.
  subst c self'. reflexivity.
Qed.

(** X3. Requested offsets that already lie in [[0, V - S]] (the
    difference fitting an [int]) are returned unchanged, so a top-left
    anchored overlay sits exactly at its requested offsets. *)
Theorem offsets_in_range_are_kept (g : Geometry) (panel_size : QSize.t) :
  QSize.width panel_size - width g <= INT_MAX ->
  QSize.height panel_size - height g <= INT_MAX ->
  0 <= offset_x g <= QSize.width panel_size - width g ->
  0 <= offset_y g <= QSize.height panel_size - height g ->
  calculateClampedOffsets (mk g) panel_size = (offset_x g, offset_y g)
  /\ (anchor g = TopLeft ->
      calculateAbsolutePosition (mk g) panel_size = (offset_x g, offset_y g)).
Proof.
  intros Hx Hy Hox Hoy.
  assert (Hc : calculateClampedOffsets (mk g) panel_size = (offset_x g, offset_y g)).
  { unfold calculateClampedOffsets, int_sub. simpl.
    rewrite !to_int_id by (unfold int_range, INT_MIN, INT_MAX in *; lia).
    rewrite !std_max_spec.
    unfold std_clamp.
    destruct (Z.ltb_spec (offset_x g) 0); [lia|].
    destruct (Z.ltb_spec (Z.max 0 (QSize.width panel_size - width g)) (offset_x g));
      [lia|].
    destruct (Z.ltb_spec (offset_y g) 0); [lia|].
    destruct (Z.ltb_spec (Z.max 0 (QSize.height panel_size - height g)) (offset_y g));
      [lia|].
    reflexivity. }
  split; [exact Hc|].
  intros Ha. unfold calculateAbsolutePosition. rewrite Hc. simpl.
  rewrite Ha. reflexivity.
Qed.

Lemma offsets_in_range_are_kept_witness :
  calculateClampedOffsets (mk (mkGeometry 200 100 600 380 BottomLeft))
    (QSize.mk 800 480) = (600, 380).
Proof.
  apply (offsets_in_range_are_kept
           (mkGeometry 200 100 600 380 BottomLeft) (QSize.mk 800 480));
    simpl; unfold INT_MAX; lia.
Defined.

(** X4. Clamping preserves the order of requested offsets: of two
    geometries that differ only in their offsets, the one asking for no
    more on an axis gets no more on that axis. *)
Theorem clamping_is_monotone
    (w h ox oy ox' oy' : Z) (a a' : Anchor) (panel_size : QSize.t) :
  ox <= ox' -> oy <= oy' ->
  (calculateClampedOffsets (mk (mkGeometry w h ox oy a)) panel_size).1
  <= (calculateClampedOffsets (mk (mkGeometry w h ox' oy' a')) panel_size).1
  /\ (calculateClampedOffsets (mk (mkGeometry w h ox oy a)) panel_size).2
     <= (calculateClampedOffsets (mk (mkGeometry w h ox' oy' a')) panel_size).2.
Proof.
  intros Hx Hy. unfold calculateClampedOffsets. simpl.
  split; apply std_clamp_monotone; try assumption; apply std_max_nonneg.
Qed.

Lemma clamping_is_monotone_witness :
  (calculateClampedOffsets (mk (mkGeometry 200 200 (-5) 30 TopLeft))
     (QSize.mk 800 600)).1
  <= (calculateClampedOffsets (mk (mkGeometry 200 200 700 9000 BottomRight))
        (QSize.mk 800 600)).1.
Proof.
  apply (clamping_is_monotone 200 200 (-5) 30 700 9000 TopLeft BottomRight
           (QSize.mk 800 600)); lia.
Defined.

End Placement.

(** ** The overlay resource over its lifetime *)

Section Resource.
Import Ogre OverlayPanel.

Lemma updateTextureSize_frame (env : Env) (p p' : t) (width height : N)
    (l : list event) :
  updateTextureSize env p width height = (Done p', l) ->
  name_ p' = name_ p /\ overlay_ p' = overlay_ p /\ panel_ p' = panel_ p.
Proof.
  unfold updateTextureSize.
  destruct p as [n ov [e|] mt tx]; simpl; [|intros [= <- <-]; auto].
  rewrite !floor_one.
  destruct (texture_differs _ _ _); [|intros [= <- <-]; auto].
  destruct tx as [x|], mt as [m|]; simpl; intros [= <- <-]; auto.
Qed.

Lemma run_op_frame (env : Env) (o : op) (p p' : t) (l : list event) :
  run_op env o p = (Done p', l) ->
  name_ p' = name_ p
  /\ (is_Some (overlay_ p') <-> is_Some (overlay_ p))
  /\ (is_Some (overlay_ p) -> isVisible p' = visibility_step (isVisible p) o)
  /\ (is_update o = false ->
      material_ p' = material_ p /\ texture_ p' = texture_ p).
Proof.
  destruct o as [| |x y|w h|w h|]; simpl.
  - unfold show. destruct p as [n [ov|] pe mt tx]; simpl;
      intros [= <- <-]; simpl; repeat split; auto; intros [? ?]; discriminate.
  - unfold hide. destruct p as [n [ov|] pe mt tx]; simpl;
      intros [= <- <-]; simpl; repeat split; auto; intros [? ?]; discriminate.
  - unfold setPosition. destruct p as [n ov [pe|] mt tx]; simpl;
      intros [= <- <-]; simpl; repeat split; auto.
  - unfold setDimensions. destruct p as [n ov [pe|] mt tx]; simpl;
      intros [= <- <-]; simpl; repeat split; auto.
  - intros H. destruct (updateTextureSize_frame _ _ _ _ _ _ H) as (Hn & Ho & _).
    unfold isVisible. rewrite Ho. repeat split; auto; discriminate.
  - unfold getPixelBuffer, ScopedPixelBuffer.ctor.
    destruct p as [n ov pe mt [[tn tw th [b|]]|]]; simpl;
      intros [= <- <-]; simpl; repeat split; auto.
Qed.

Lemma constructed_wf (p : t) : constructed p -> wf p.
Proof. intros (_ & _ & Hm) _. exact Hm. Qed.

Lemma run_op_constructed (env : Env) (o : op) (p : t) :
  constructed p ->
  exists p' l, run_op env o p = (Done p', l) /\ constructed p'.
Proof.
  intros Hc.
  destruct (run_op_spec env o p (constructed_wf p Hc))
    as (p' & l & Hop & Hwf & Hov & Hpan & _).
  exists p', l. split; [exact Hop|].
  destruct Hc as (Ho & Hp & _). unfold constructed, wf in *. tauto.
Qed.

Lemma run_ops_invalid (env : Env) (ops : list op) (name : string) :
  run_ops env ops (invalid_resource name) = (Done (invalid_resource name), []).
Proof.
  induction ops as [|o ops IH]; [reflexivity|].
  simpl.
  assert (Ho : run_op env o (invalid_resource name)
               = (Done (invalid_resource name), []))
    by (destruct o; reflexivity).
  rewrite Ho. simpl. rewrite IH. reflexivity.
Qed.

(** X5. When the overlay manager is unavailable at construction, the
    resource is left with every handle null, only the error is logged,
    and every later operation is a no-op: after any sequence of
    operations the state is unchanged and nothing else has been called,
    it is never visible, has texture size 0 x 0, and its destructor
    calls nothing. *)
Theorem invalid_resource_is_inert (env : Env) (name : string) (ops : list op) :
  overlay_mgr env = false ->
  lifetime env name ops = (Done (invalid_resource name), [EvLogError])
  /\ isVisible (invalid_resource name) = false
  /\ textureWidth (invalid_resource name) = 0%N
  /\ textureHeight (invalid_resource name) = 0%N
  /\ dtor env (invalid_resource name) = (Done tt, []).
Proof.
  intros Hmgr. split; [|repeat split].
  unfold lifetime, ctor. rewrite Hmgr. simpl.
  fold (invalid_resource name). rewrite run_ops_invalid. reflexivity.
Qed.

Lemma invalid_resource_is_inert_witness :
  lifetime
    {| overlay_mgr := false; overlay_created_visible := true;
       buffer_of := fun _ _ _ => Some 7%nat; lock_has_data := fun _ => true;
       widget_render_throws := false |}
    "HUD" [OpShow; OpUpdateTextureSize 64 64; OpGetPixelBuffer]
  = (Done (invalid_resource "HUD"), [EvLogError]).
Proof.
  apply (invalid_resource_is_inert
           {| overlay_mgr := false; overlay_created_visible := true;
              buffer_of := fun _ _ _ => Some 7%nat;
              lock_has_data := fun _ => true;
              widget_render_throws := false |}
           "HUD" [OpShow; OpUpdateTextureSize 64 64; OpGetPixelBuffer]).
  reflexivity.
Defined.

Lemma run_ops_visibility (env : Env) (ops : list op) (p : t) :
  constructed p ->
  exists p' l,
    run_ops env ops p = (Done p', l)
    /\ constructed p'
    /\ isVisible p' = visibility_after ops (isVisible p).
Proof.
  revert p. induction ops as [|o ops IH]; intros p Hc.
  - exists p, []. split; [reflexivity|]. split; [exact Hc|reflexivity].
  - destruct (run_op_constructed env o p Hc) as (p1 & l1 & Hop & Hc1).
    destruct (run_op_frame env o p p1 l1 Hop) as (_ & _ & Hvis & _).
    destruct (IH p1 Hc1) as (p2 & l2 & Hops & Hc2 & Hv2).
    exists p2, (l1 ++ l2).
    split; [exact (bind_Done_intro _ _ _ _ _ _ Hop Hops)|].
    split; [exact Hc2|].
    rewrite Hv2, (Hvis (proj1 Hc)). reflexivity.
Qed.

(** X6. On a successfully constructed resource, visibility is decided by
    the last [show] or [hide] of the sequence, whatever positioning,
    resizing or buffer operations are interleaved; with neither, it is
    the hidden state the constructor leaves. *)
Theorem visibility_follows_last_show_or_hide
    (env : Env) (name : string) (ops : list op) :
  overlay_mgr env = true ->
  exists p l,
    lifetime env name ops = (Done p, l)
    /\ isVisible p = visibility_after ops false.
Proof.
  intros Hmgr.
  destruct (ctor_spec env name) as (p0 & l0 & Hc & _ & Hv0 & Hok & _).
  destruct (run_ops_visibility env ops p0 (Hok Hmgr)) as (p & l & Hops & _ & Hv).
  exists p, (l0 ++ l).
  split; [exact (bind_Done_intro _ _ _ _ _ _ Hc Hops)|].
  rewrite Hv, Hv0. reflexivity.
Qed.

Lemma visibility_follows_last_show_or_hide_witness :
  exists p l,
    lifetime ready_env "HUD"
      [OpHide; OpShow; OpUpdateTextureSize 32 32; OpSetPosition 4 4] = (Done p, l)
    /\ isVisible p = true.
Proof.
  destruct (visibility_follows_last_show_or_hide ready_env "HUD"
              [OpHide; OpShow; OpUpdateTextureSize 32 32; OpSetPosition 4 4]
              eq_refl)
    as (p & l & H & Hv).
  exists p, l. split; [exact H|exact Hv].
Defined.

Lemma run_op_material (env : Env) (o : op) (p p' : t) (l : list event) :
  constructed p -> material_bound env p ->
  run_op env o p = (Done p', l) ->
  material_bound env p'.
Proof.
  intros Hc Hb Hop.
  destruct (is_update o) eqn:Hu.
  - destruct o; try discriminate. simpl in Hop.
    destruct Hc as (_ & [e He] & [m Hm]).
    rewrite (updateTextureSize_spec env p width height e m He Hm) in Hop.
    destruct Hb as (m0 & Hm0 & Hname & Htex).
    rewrite Hm in Hm0. injection Hm0 as <-.
    unfold material_bound.
    destruct (texture_ p) as [x|] eqn:Hx.
    + destruct ((tex_width x =? N.max width 1)%N && (tex_height x =? N.max height 1)%N);
        injection Hop as <- <-.
      * exists m. rewrite Hx. auto.
      * eexists. simpl. repeat split; auto.
    + injection Hop as <- <-.
      eexists. simpl. destruct Htex as [Hu0 _]. rewrite Hu0.
      repeat split; auto.
  - destruct (run_op_frame env o p p' l Hop) as (Hn & _ & _ & Hfr).
    destruct (Hfr Hu) as [Hm Ht].
    unfold material_bound. rewrite Hn, Hm, Ht. exact Hb.
Qed.

Lemma run_ops_material (env : Env) (ops : list op) (p : t) :
  constructed p -> material_bound env p ->
  exists p' l,
    run_ops env ops p = (Done p', l)
    /\ constructed p' /\ material_bound env p' /\ name_ p' = name_ p.
Proof.
  revert p. induction ops as [|o ops IH]; intros p Hc Hb.
  - exists p, []. split; [reflexivity|]. auto.
  - destruct (run_op_constructed env o p Hc) as (p1 & l1 & Hop & Hc1).
    pose proof (run_op_material env o p p1 l1 Hc Hb Hop) as Hb1.
    destruct (run_op_frame env o p p1 l1 Hop) as (Hn1 & _).
    destruct (IH p1 Hc1 Hb1) as (p2 & l2 & Hops & Hc2 & Hb2 & Hn2).
    exists p2, (l1 ++ l2).
    split; [exact (bind_Done_intro _ _ _ _ _ _ Hop Hops)|].
    split; [exact Hc2|]. split; [exact Hb2|]. congruence.
Qed.

(** X7. On a successfully constructed resource, after any sequence of
    operations the material is bound to exactly the current texture:
    when a texture exists it is named [name + "Texture"], its pixel
    buffer is the one the host gave for its current size, and the
    material has that one texture unit with alpha blending on; when none
    exists the material has no texture unit.  No unit of a removed
    texture is ever left behind. *)
Theorem material_tracks_texture (env : Env) (name : string) (ops : list op) :
  overlay_mgr env = true ->
  exists p l,
    lifetime env name ops = (Done p, l)
    /\ name_ p = name
    /\ material_bound env p.
Proof.
  intros Hmgr.
  assert (H0 : exists p0 l0,
             ctor env name = (Done p0, l0)
             /\ constructed p0 /\ material_bound env p0 /\ name_ p0 = name).
  { unfold ctor. rewrite Hmgr. simpl. eexists _, _.
    split; [reflexivity|]. unfold constructed, material_bound. simpl.
    split; [repeat split; eauto|].
    split; [|reflexivity].
    eexists. split; [reflexivity|]. repeat split. }
  destruct H0 as (p0 & l0 & Hc & Hc0 & Hb0 & Hn0).
  destruct (run_ops_material env ops p0 Hc0 Hb0) as (p & l & Hops & _ & Hb & Hn).
  exists p, (l0 ++ l).
  split; [exact (bind_Done_intro _ _ _ _ _ _ Hc Hops)|].
  split; [congruence|exact Hb].
Qed.

Lemma material_tracks_texture_witness :
  exists p l,
    lifetime ready_env "HUD"
      [OpUpdateTextureSize 64 64; OpUpdateTextureSize 128 64; OpShow] = (Done p, l)
    /\ material_bound ready_env p.
Proof.
  destruct (material_tracks_texture ready_env "HUD"
              [OpUpdateTextureSize 64 64; OpUpdateTextureSize 128 64; OpShow]
              eq_refl)
    as (p & l & H & _ & Hb).
  exists p, l. split; [exact H|exact Hb].
Defined.

(** X8. Texture accounting.  At every point of a resource's life the
    textures created exceed the textures removed by exactly one when the
    resource holds a texture and by none otherwise, so at most one
    texture is alive; the destructor completes without dereferencing a
    null handle and leaves every created texture removed. *)
Theorem no_texture_is_leaked (env : Env) (name : string) (ops : list op) :
  exists p l l',
    lifetime env name ops = (Done p, l)
    /\ count_ev is_texture_create l
       = (count_ev is_texture_remove l + has_texture p)%nat
    /\ (has_texture p <= 1)%nat
    /\ dtor env p = (Done tt, l')
    /\ count_ev is_texture_create (l ++ l')
       = count_ev is_texture_remove (l ++ l').
Proof.
  destruct (lifetime_teardown env name ops) as (p & l & l' & Hl & Hd & Hbal).
  destruct (lifetime_spec env name ops)
    as (q & lq & Hq & _ & _ & _ & _ & _ & _ & Hacc).
  rewrite Hl in Hq. injection Hq as <- <-.
  exists p, l, l'. repeat split; try assumption.
  unfold has_texture. destruct (texture_ p); lia.
Qed.

End Resource.

(** ** The pixel buffer guard *)

Section GuardMore.
Import ScopedPixelBuffer.






End GuardMore.

(** ** The overlay manager *)


Lemma to_uint_negative (z : Z) :
  INT_MIN <= z < 0 -> to_uint z = Z.to_N (z + 2 ^ 32).
Proof.
  unfold to_uint, INT_MIN. intros Hz. f_equal.
  rewrite <- (Z_mod_plus_full z 1 (2 ^ 32)).
  rewrite Z.mod_small by lia. lia.
Qed.


Lemma to_int_succ_neq (c : Z) : to_int (c + 1) <> c.
Proof.
  unfold to_int. intros H.
  pose proof (Z.mod_pos_bound (c + 1 + 2 ^ 31) (2 ^ 32) ltac:(lia)) as Hb.
  pose proof (Z.div_mod (c + 1 + 2 ^ 31) (2 ^ 32) ltac:(lia)) as Hdm.
  lia.
Qed.

Lemma string_app_length (s1 s2 : string) :
  String.length (s1 +:+ s2) = (String.length s1 + String.length s2)%nat.
Proof.
  induction s1 as [|a s1 IH]; [reflexivity|].
  change (S (String.length (s1 +:+ s2))
          = S (String.length s1 + String.length s2)).
  rewrite IH. reflexivity.
Qed.

Lemma string_app_inv_tail (s1 s2 t : string) :
  s1 +:+ t = s2 +:+ t -> s1 = s2.
Proof.
  revert s2. induction s1 as [|a s1 IH]; intros [|a' s2] H.
  - reflexivity.
  - apply (f_equal String.length) in H.
    rewrite !string_app_length in H. simpl in H. lia.
  - apply (f_equal String.length) in H.
    rewrite !string_app_length in H. simpl in H. lia.
  - change (String a (s1 +:+ t) = String a' (s2 +:+ t)) in H.
    injection H as -> H. f_equal. apply IH, H.
Qed.

Section ManagerMore.
Import Ogre OverlayManager.

(** X11. [attach] always completes with a resource in place.  It
    creates the resource, and advances the name counter by one, only
    when the manager has none; it binds the render panel of the context
    only when the manager has none and the context offers one.
    Attaching again with the same context changes nothing and calls
    nothing, and once a render panel is bound no context or counter
    value changes the manager any more. *)
Theorem attach_is_idempotent (env : Env) (overlay_count : Z) (m : t)
    (context : DisplayContext) :
  exists m1 c1 l,
    attach env overlay_count m context = (Done (m1, c1), l)
    /\ is_Some (overlay_panel_ m1)
    /\ attach env c1 m1 context = (Done (m1, c1), [])
    /\ (is_Some (render_panel_ m1) ->
        forall context' c', attach env c' m1 context' = (Done (m1, c'), []))
    /\ (is_Some (overlay_panel_ m) ->
        overlay_panel_ m1 = overlay_panel_ m /\ c1 = overlay_count /\ l = [])
    /\ (overlay_panel_ m = None -> c1 = to_int (overlay_count + 1))
    /\ (is_Some (render_panel_ m) -> render_panel_ m1 = render_panel_ m).
Proof.
  unfold attach.
  destruct m as [[p|] rp]; simpl.
  - eexists _, _, _. split; [reflexivity|]. simpl.
    split; [eauto|]. split.
    { destruct rp as [rp|]; [reflexivity|].
      destruct (getViewManager context) as [[[vrp|]]|]; reflexivity. }
    split.
    { intros [rp1 Hrp1] context' c'. rewrite Hrp1. reflexivity. }
    split; [auto|]. split; [discriminate|].
    intros [rp0 ->]. reflexivity.
  - unfold OverlayPanel.ctor. destruct (overlay_mgr env); simpl;
      (eexists _, _, _; split; [reflexivity|]); simpl;
      (split; [eauto|]);
      (split;
        [destruct rp as [rp|]; try reflexivity;
         destruct (getViewManager context) as [[[vrp|]]|]; reflexivity|]);
      (split; [intros [rp1 Hrp1] context' c'; rewrite Hrp1; reflexivity|]);
      (split; [intros [? ?]; discriminate|]);
      (split; [reflexivity|]);
      intros [rp0 ->]; reflexivity.
Qed.

Lemma attach_is_idempotent_witness :
  exists m1 c1 l,
    attach ready_env 5 idle_manager (mkDisplayContext None) = (Done (m1, c1), l)
    /\ forall context' c', attach ready_env c' m1 context' = (Done (m1, c'), []).
Proof.
  destruct (attach_is_idempotent ready_env 5 idle_manager (mkDisplayContext None))
    as (m1 & c1 & l & Ha & _ & _ & Hany & _ & _ & Hrp).
  exists m1, c1, l. split; [exact Ha|].
  apply Hany. rewrite (Hrp ltac:(simpl; eauto)). simpl. eauto.
Defined.

(** X12. Resources created by [attach] under different counter values
    have different names, and so have the overlay, panel, material and
    texture derived from them by a common suffix.  Two managers attached
    one after the other, the second with the counter the first returned,
    therefore never share a name. *)
Theorem attach_names_are_distinct
    (env : Env) (c c' : Z) (m m' : t) (context context' : DisplayContext) :
  overlay_panel_ m = None -> overlay_panel_ m' = None ->
  exists m1 c1 l1 p1,
    attach env c m context = (Done (m1, c1), l1)
    /\ overlay_panel_ m1 = Some p1
    /\ OverlayPanel.name_ p1 = "AttitudeDisplayHUD" +:+ pretty c
    /\ (forall m2 c2 l2 p2,
        attach env c' m' context' = (Done (m2, c2), l2) ->
        overlay_panel_ m2 = Some p2 ->
        c <> c' ->
        OverlayPanel.name_ p1 <> OverlayPanel.name_ p2
        /\ forall suffix,
             OverlayPanel.name_ p1 +:+ suffix <> OverlayPanel.name_ p2 +:+ suffix)
    /\ c1 <> c.
Proof.
  intros Hm Hm'.
  assert (Hname : forall cnt mm ctx mx cx lx px,
             overlay_panel_ mm = None ->
             attach env cnt mm ctx = (Done (mx, cx), lx) ->
             overlay_panel_ mx = Some px ->
             OverlayPanel.name_ px = "AttitudeDisplayHUD" +:+ pretty cnt
             /\ cx = to_int (cnt + 1)).
  { intros cnt mm ctx mx cx lx px Hn. unfold attach. rewrite Hn.
    unfold OverlayPanel.ctor. destruct (overlay_mgr env); simpl;
      intros [= <- <- <-]; simpl; intros [= <-]; split; reflexivity. }
  destruct (attach_idempotent env c m context)
    as (m1 & c1 & l1 & Ha & [p1 Hp1] & _).
  destruct (Hname _ _ _ _ _ _ _ Hm Ha Hp1) as [Hn1 Hc1].
  exists m1, c1, l1, p1. split; [exact Ha|]. split; [exact Hp1|].
  split; [exact Hn1|]. split.
  - intros m2 c2 l2 p2 Ha2 Hp2 Hne.
    destruct (Hname _ _ _ _ _ _ _ Hm' Ha2 Hp2) as [Hn2 _].
    assert (Hd : OverlayPanel.name_ p1 <> OverlayPanel.name_ p2).
    { rewrite Hn1, Hn2. intros Heq.
      apply (inj (String.app "AttitudeDisplayHUD")) in Heq.
      apply (inj pretty) in Heq. contradiction. }
    split; [exact Hd|].
    intros suffix Heq. apply Hd. exact (string_app_inv_tail _ _ _ Heq).
  - rewrite Hc1. apply to_int_succ_neq.
Qed.

Lemma attach_names_are_distinct_witness :
  exists m1 c1 l1 p1,
    attach ready_env 0 ctor (mkDisplayContext None) = (Done (m1, c1), l1)
    /\ overlay_panel_ m1 = Some p1
    /\ OverlayPanel.name_ p1 = "AttitudeDisplayHUD" +:+ pretty 0
    /\ c1 <> 0.
Proof.
  destruct (attach_names_are_distinct ready_env 0 1 ctor ctor
              (mkDisplayContext None) (mkDisplayContext None) eq_refl eq_refl)
    as (m1 & c1 & l1 & p1 & Ha & Hp & Hn & _ & Hc).
  exists m1, c1, l1, p1. auto.
Defined.





(** X15. A negative width or height is neither rejected nor clamped by
    [setGeometry]: converted to [unsigned int] it asks for a texture of
    [2^32 + width] pixels on that axis, at least [2^31]. *)
Theorem manager_setGeometry_negative_size (env : Env) (m : t)
    (p : OverlayPanel.t) (rp : RenderPanel)
    (g : OverlayGeometryManager.Geometry) :
  overlay_panel_ m = Some p -> render_panel_ m = Some rp ->
  OverlayPanel.constructed p ->
  exists p' l,
    setGeometry env m
      (OverlayGeometryManager.width g) (OverlayGeometryManager.height g)
      (OverlayGeometryManager.offset_x g) (OverlayGeometryManager.offset_y g)
      (OverlayGeometryManager.anchor g)
    = (Done (mk (Some p') (Some rp)), l)
    /\ (INT_MIN <= OverlayGeometryManager.width g < 0 ->
        OverlayPanel.textureWidth p'
        = Z.to_N (OverlayGeometryManager.width g + 2 ^ 32)
        /\ (2 ^ 31 <= OverlayPanel.textureWidth p')%N)
    /\ (INT_MIN <= OverlayGeometryManager.height g < 0 ->
        OverlayPanel.textureHeight p'
        = Z.to_N (OverlayGeometryManager.height g + 2 ^ 32)
        /\ (2 ^ 31 <= OverlayPanel.textureHeight p')%N).
Proof.
  intros Hp Hrp Hc.
  destruct (setGeometry_places_panel env m p rp g Hp Hrp Hc)
    as (p' & e & l & Hs & _ & _ & _ & Htw & Hth).
  exists p', l. split; [exact Hs|].
  split; intros Hneg.
  - rewrite Htw, (to_uint_negative _ Hneg). unfold INT_MIN in Hneg. lia.
  - rewrite Hth, (to_uint_negative _ Hneg). unfold INT_MIN in Hneg. lia.
Qed.

Lemma manager_setGeometry_negative_size_witness :
  exists p' l,
    setGeometry ready_env idle_manager (-1) 200 0 0
      OverlayGeometryManager.TopLeft
    = (Done (mk (Some p') (Some (mkRenderPanel (QSize.mk 800 600)))), l)
    /\ OverlayPanel.textureWidth p' = 4294967295%N.
Proof.
  destruct (manager_setGeometry_negative_size ready_env idle_manager
              OverlayPanel.hud_fresh (mkRenderPanel (QSize.mk 800 600))
              (OverlayGeometryManager.mkGeometry (-1) 200 0 0
                 OverlayGeometryManager.TopLeft))
    as (p' & l & Hs & Hw & _); try reflexivity.
  - unfold OverlayPanel.constructed. simpl. eauto.
  - exists p', l. split; [exact Hs|].
    destruct (Hw ltac:(simpl; unfold INT_MIN; lia)) as [Hw' _]. exact Hw'.
Defined.

Lemma render_zero (env : Env) (m : t) :
  no_texture_area m -> render env m = (Done m, []).
Proof.
  unfold no_texture_area, render.
  destruct (overlay_panel_ m) as [p|]; [|reflexivity].
  intros [-> | ->]; [reflexivity|]. rewrite orb_true_r. reflexivity.
Qed.

(** Either [render] returns at once, or the texture has an area and
    [render_spec] applies. *)
Lemma render_cases (env : Env) (m : t) :
  (no_texture_area m /\ render env m = (Done m, []))
  \/ (exists p x,
        overlay_panel_ m = Some p /\ OverlayPanel.texture_ p = Some x
        /\ tex_width x <> 0%N /\ tex_height x <> 0%N).
Proof.
  destruct (overlay_panel_ m) as [p|] eqn:Hp.
  - destruct (OverlayPanel.texture_ p) as [x|] eqn:Hx.
    + destruct (N.eq_dec (tex_width x) 0%N) as [Hw|Hw];
        [|destruct (N.eq_dec (tex_height x) 0%N) as [Hh|Hh]].
      * left. assert (Hz : no_texture_area m).
        { unfold no_texture_area, OverlayPanel.textureWidth.
          rewrite Hp, Hx. left. exact Hw. }
        split; [exact Hz|exact (render_zero env m Hz)].
      * left. assert (Hz : no_texture_area m).
        { unfold no_texture_area, OverlayPanel.textureHeight.
          rewrite Hp, Hx. right. exact Hh. }
        split; [exact Hz|exact (render_zero env m Hz)].
      * right. exists p, x. auto.
    + left. assert (Hz : no_texture_area m).
      { unfold no_texture_area, OverlayPanel.textureWidth.
        rewrite Hp, Hx. left. reflexivity. }
      split; [exact Hz|exact (render_zero env m Hz)].
  - left. assert (Hz : no_texture_area m).
    { unfold no_texture_area. rewrite Hp. exact I. }
    split; [exact Hz|exact (render_zero env m Hz)].
Qed.

Lemma setDimensions_frame (p p' : OverlayPanel.t) (width height : N)
    (l : list event) :
  OverlayPanel.setDimensions p width height = (Done p', l) ->
  l = []
  /\ OverlayPanel.name_ p' = OverlayPanel.name_ p
  /\ OverlayPanel.overlay_ p' = OverlayPanel.overlay_ p
  /\ OverlayPanel.material_ p' = OverlayPanel.material_ p
  /\ OverlayPanel.texture_ p' = OverlayPanel.texture_ p
  /\ OverlayPanel.setDimensions p' width height = (Done p', [])
  /\ (forall e, OverlayPanel.panel_ p' = Some e ->
      el_dimensions e = Some (width, height)).
Proof.
  unfold OverlayPanel.setDimensions.
  destruct p as [n ov [e|] mt tx]; simpl; intros [= <- <-]; simpl;
    repeat split; try discriminate.
  intros e' [= <-]. reflexivity.
Qed.





(** X18. What [render] leaves alone.  In every state and whichever way
    it ends, [render] creates and removes no texture.  When it returns,
    the render panel binding and the resource's name, overlay (hence
    visibility), material and texture are as before; only the panel's
    dimensions can have changed, to the texture size; and rendering the
    resulting state again, if that returns, changes nothing more. *)
Theorem render_preserves_resource (env : Env) (m : t) :
  count_ev is_texture_create (render env m).2 = 0%nat
  /\ count_ev is_texture_remove (render env m).2 = 0%nat
  /\ (forall m' l,
      render env m = (Done m', l) ->
      render_panel_ m' = render_panel_ m
      /\ match overlay_panel_ m with
         | None => overlay_panel_ m' = None
         | Some p =>
             exists p',
               overlay_panel_ m' = Some p'
               /\ OverlayPanel.name_ p' = OverlayPanel.name_ p
               /\ OverlayPanel.overlay_ p' = OverlayPanel.overlay_ p
               /\ OverlayPanel.isVisible p' = OverlayPanel.isVisible p
               /\ OverlayPanel.material_ p' = OverlayPanel.material_ p
               /\ OverlayPanel.texture_ p' = OverlayPanel.texture_ p
         end
      /\ (forall m'' l', render env m' = (Done m'', l') -> m'' = m')).
Proof.
  destruct (render_cases env m) as [[Hz Hr] | (p & x & Hp & Hx & Hw & Hh)].
  - rewrite Hr. split; [reflexivity|]. split; [reflexivity|].
    intros m' l [= <- <-]. split; [reflexivity|]. split.
    + destruct (overlay_panel_ m) as [p|]; [|reflexivity].
      exists p. repeat split.
    + intros m'' l'. rewrite Hr. intros [= <-]. reflexivity.
  - destruct (render_spec env m p x Hp Hx Hw Hh) as (p' & Hsd & Hr).
    destruct (setDimensions_frame _ _ _ _ _ Hsd)
      as (_ & Hn & Ho & Hm & Ht & Hsd' & _).
    assert (Hlog : count_ev is_texture_create (render env m).2 = 0%nat
                   /\ count_ev is_texture_remove (render env m).2 = 0%nat).
    { rewrite Hr. destruct (tex_buffer x) as [b|]; [|split; reflexivity].
      destruct (lock_has_data env b), (widget_render_throws env);
        split; reflexivity. }
    split; [apply Hlog|]. split; [apply Hlog|].
    intros m' l Hm'. rewrite Hr in Hm'.
    assert (Hst : m' = mk (Some p') (render_panel_ m)).
    { destruct (tex_buffer x) as [b|]; [|injection Hm' as <- _; reflexivity].
      destruct (lock_has_data env b), (widget_render_throws env);
        simpl in Hm'; try discriminate; injection Hm' as <- _; reflexivity. }
    subst m'. simpl. split; [reflexivity|]. rewrite Hp. split.
    + exists p'. repeat split; try assumption.
      unfold OverlayPanel.isVisible. rewrite Ho. reflexivity.
    + intros m'' l' Hr2.
      assert (Hx' : OverlayPanel.texture_ p' = Some x) by congruence.
      destruct (render_spec env (mk (Some p') (render_panel_ m)) p' x
                  eq_refl Hx' Hw Hh) as (p'' & Hsd'' & Hr').
      rewrite Hsd' in Hsd''. injection Hsd'' as <-.
      rewrite Hr' in Hr2. simpl in Hr2.
      destruct (tex_buffer x) as [b|]; [|injection Hr2 as <- _; reflexivity].
      destruct (lock_has_data env b), (widget_render_throws env);
        simpl in Hr2; try discriminate; injection Hr2 as <- _; reflexivity.
Qed.

Lemma render_preserves_resource_witness :
  let m := mk (Some (OverlayPanel.hud_textured 64 32))
              (Some (mkRenderPanel (QSize.mk 800 600))) in
  exists m' l,
    render ready_env m = (Done m', l)
    /\ render_panel_ m' = render_panel_ m
    /\ forall m'' l', render ready_env m' = (Done m'', l') -> m'' = m'.
Proof.
  intros m.
  destruct (render_preserves_resource ready_env m) as (_ & _ & H).
  destruct (render ready_env m) as [[m'| |] l] eqn:Hr; try discriminate.
  destruct (H m' l eq_refl) as (Hrp & _ & Hagain).
  exists m', l. auto.
Defined.




End ManagerMore.

(** ** HeadingIndicator *)

Section Ring.
Import HeadingIndicator.

(** The three loops of [drawFixedOuterRing] end within their fuel. *)
Lemma ring_items_computed :
  drawFixedOuterRing
  = [MajorTick 0; CardinalLetter 0 "N"; MajorTick 30; MajorTick 60;
     MajorTick 90; CardinalLetter 90 "E"; MajorTick 120; MajorTick 150;
     MajorTick 180; CardinalLetter 180 "S"; MajorTick 210; MajorTick 240;
     MajorTick 270; CardinalLetter 270 "W"; MajorTick 300; MajorTick 330;
     DegreeLabel 0 (Number 0); DegreeLabel 30 (Number (-30));
     DegreeLabel 60 (Number (-60)); DegreeLabel 90 (Number (-90));
     DegreeLabel 120 (Number (-120)); DegreeLabel 150 (Number (-150));
     DegreeLabel 180 PlusMinus180; DegreeLabel 210 (Number 150);
     DegreeLabel 240 (Number 120); DegreeLabel 270 (Number 90);
     DegreeLabel 300 (Number 60); DegreeLabel 330 (Number 30);
     MinorTick 10; MinorTick 20; MinorTick 40; MinorTick 50; MinorTick 70;
     MinorTick 80; MinorTick 100; MinorTick 110; MinorTick 130;
     MinorTick 140; MinorTick 160; MinorTick 170; MinorTick 190;
     MinorTick 200; MinorTick 220; MinorTick 230; MinorTick 250;
     MinorTick 260; MinorTick 280; MinorTick 290; MinorTick 310;
     MinorTick 320; MinorTick 340; MinorTick 350].
Proof. vm_compute. reflexivity. Qed.

Local Ltac pick_member :=
  repeat first [left; reflexivity | right].

Local Ltac split_members H :=
  repeat match type of H with
         | _ \/ _ => destruct H as [H|H]
         end.

Lemma multiple_of_thirty (angle : Z) :
  0 <= angle < 360 -> angle mod 30 = 0 ->
  angle = 0 \/ angle = 30 \/ angle = 60 \/ angle = 90 \/ angle = 120
  \/ angle = 150 \/ angle = 180 \/ angle = 210 \/ angle = 240
  \/ angle = 270 \/ angle = 300 \/ angle = 330.
Proof.
  intros Hr Hm.
  pose proof (Z.div_mod angle 30 ltac:(lia)) as Hd. rewrite Hm in Hd.
  assert (Hq : 0 <= angle / 30 < 12) by lia.
  lia.
Qed.

Lemma minor_multiple_of_ten (angle : Z) :
  0 <= angle < 360 -> angle mod 10 = 0 -> angle mod 30 <> 0 ->
  angle = 10 \/ angle = 20 \/ angle = 40 \/ angle = 50 \/ angle = 70
  \/ angle = 80 \/ angle = 100 \/ angle = 110 \/ angle = 130
  \/ angle = 140 \/ angle = 160 \/ angle = 170 \/ angle = 190
  \/ angle = 200 \/ angle = 220 \/ angle = 230 \/ angle = 250
  \/ angle = 260 \/ angle = 280 \/ angle = 290 \/ angle = 310
  \/ angle = 320 \/ angle = 340 \/ angle = 350.
Proof.
  intros Hr Hm Hn.
  pose proof (Z.div_mod angle 10 ltac:(lia)) as Hd. rewrite Hm in Hd.
  pose proof (Z.div_mod angle 30 ltac:(lia)) as Hd3.
  pose proof (Z.mod_pos_bound angle 30 ltac:(lia)) as Hb3.
  assert (Hq : 0 <= angle / 10 < 36) by lia.
  assert (Hq3 : 0 <= angle / 30 < 12) by lia.
  lia.
Qed.

(** X20. The tick marks of the outer ring.  A major tick is drawn at
    exactly the multiples of 30 degrees in [[0, 360)] and a minor tick at
    exactly the other multiples of 10 degrees, so every 10 degrees has
    one tick and none has both; a cardinal letter is drawn only at 0,
    90, 180 and 270 degrees (N, E, S, W), each on a major tick; and no
    item of the ring is drawn twice. *)
Theorem ring_has_one_tick_every_ten_degrees (angle : Z) :
  (In (MajorTick angle) drawFixedOuterRing
   <-> 0 <= angle < 360 /\ angle mod 30 = 0)
  /\ (In (MinorTick angle) drawFixedOuterRing
      <-> 0 <= angle < 360 /\ angle mod 10 = 0 /\ angle mod 30 <> 0)
  /\ (forall text,
      In (CardinalLetter angle text) drawFixedOuterRing
      <-> (angle = 0 /\ text = "N") \/ (angle = 90 /\ text = "E")
          \/ (angle = 180 /\ text = "S") \/ (angle = 270 /\ text = "W"))
  /\ NoDup drawFixedOuterRing.
Proof.
  rewrite ring_items_computed. split; [|split; [|split]].
  - split.
    + intros H. simpl in H. split_members H;
        try discriminate; try contradiction;
        injection H as <-; split; (lia || reflexivity).
    + intros [Hr Hm].
      pose proof (multiple_of_thirty angle Hr Hm) as Ha; split_members Ha;
        subst angle; simpl; pick_member.
  - split.
    + intros H. simpl in H. split_members H;
        try discriminate; try contradiction;
        injection H as <-;
        (split; [lia|split; [reflexivity|discriminate]]).
    + intros (Hr & Hm & Hn).
      pose proof (minor_multiple_of_ten angle Hr Hm Hn) as Ha; split_members Ha;
        subst angle; simpl; pick_member.
  - intros text. split.
    + intros H. simpl in H. split_members H;
        try discriminate; try contradiction;
        injection H as <- <-; tauto.
    + intros H. split_members H; destruct H as [-> ->]; simpl; pick_member.
  - apply (bool_decide_unpack _). vm_compute. exact I.
Qed.

(** X21. The degree labels of the outer ring.  A label is drawn at
    exactly the multiples of 30 degrees in [[0, 360)], with the text
    [degree_text] gives; and for every angle in [[0, 360)] that text is
    the literal for 180 degrees exactly at 180, and otherwise the number
    [v] with [-180 < v < 180] that is the negated angle up to a full
    turn: [- angle] below 180 degrees and [360 - angle] above. *)
Theorem ring_degree_labels_negate_angle (angle : Z) :
  (forall text,
     In (DegreeLabel angle text) drawFixedOuterRing
     <-> 0 <= angle < 360 /\ angle mod 30 = 0 /\ text = degree_text angle)
  /\ (0 <= angle < 360 ->
      match degree_text angle with
      | PlusMinus180 => angle = 180
      | Number v =>
          angle <> 180 /\ -180 < v < 180
          /\ v = (if angle <? 180 then - angle else 360 - angle)
          /\ (v + angle) mod 360 = 0
      end).
Proof.
  split.
  - intros text. rewrite ring_items_computed. split.
    + intros H. simpl in H. split_members H;
        try discriminate; try contradiction;
        injection H as <- <-;
        (split; [lia|split; reflexivity]).
    + intros (Hr & Hm & ->).
      pose proof (multiple_of_thirty angle Hr Hm) as Ha; split_members Ha;
        subst angle; simpl; pick_member.
  - intros Hr. unfold degree_text, display_angle.
    destruct (Z.ltb_spec 180 angle) as [Hgt|Hle].
    + destruct (Z.eqb_spec (angle - 360) 180); [lia|].
      destruct (Z.eqb_spec (angle - 360) (-180)); [lia|]. simpl.
      destruct (Z.ltb_spec angle 180); [lia|].
      repeat split; try lia.
      replace (- (angle - 360) + angle) with (1 * 360) by lia.
      apply Z_mod_mult.
    + destruct (Z.eqb_spec angle 180) as [->|Hne]; [reflexivity|].
      destruct (Z.eqb_spec angle (-180)); [lia|]. simpl.
      destruct (Z.ltb_spec angle 180); [|lia].
      repeat split; try lia.
      replace (- angle + angle) with 0 by lia. reflexivity.
Qed.

Lemma ring_degree_labels_negate_angle_witness :
  degree_text 210 = Number 150 /\ (150 + 210) mod 360 = 0.
Proof.
  destruct (ring_degree_labels_negate_angle 210) as [_ H].
  specialize (H ltac:(lia)).
  split; [reflexivity|].
  change (degree_text 210) with (Number 150) in H.
  destruct H as (_ & _ & _ & Hm). exact Hm.
Defined.

End Ring.
